(** * Personal-finance ledger: posting engine, import execution and parsers

    A shallow embedding of
      - [TransactionService] (the posting engine),
      - [ImportService]: the two previews, the import run, [parseDate] and
        the find-or-create helpers,
      - [parseQif] and [parseCsv] of [utils/fileParser.ts],
    together with the properties the specification states about them.

    Conventions.
      - The three repositories (accounts, transactions, categories) are finite
        maps from the generated primary key to the row.
      - [decimal(12,2)] columns and the amounts posted to them are integers
        counting hundredths: [fixed2 100 0] is 100.00.
      - An [async] method is a function from the ledger to an outcome and the
        ledger it leaves behind; a [throw] keeps the writes made before it,
        since no method opens a database transaction.
      - A write whose condition matches no row changes nothing.  The store
        refuses a write of a transaction row that moves one of its two
        account references to an id no account has (the foreign keys that
        the [Transaction] entity declares), and the repository refuses an
        update by an empty list of ids; a refused write throws and writes
        nothing ([Store]).  Values are taken within what their columns
        hold: amounts and balances within [decimal(12,2)], dates that are
        valid. *)

From Stdlib Require Import ZArith QArith String Ascii List Lia.
From stdpp Require Import base option list gmap fin_maps strings pretty.

Local Open Scope Z_scope.

(** ** Entities *)

Module AccountType.
Inductive t :=
  | ASSET_BANK | ASSET_INVESTMENT | ASSET_CASH
  | LIABILITY_CREDIT_CARD | LIABILITY_LOAN
  | INCOME | EXPENSE.
#[global] Instance eq_dec : EqDecision t.
Proof. solve_decision. Defined.
End AccountType.

Module CategoryType.
Inductive t := INCOME | EXPENSE | TRANSFER.
#[global] Instance eq_dec : EqDecision t.
Proof. solve_decision. Defined.
End CategoryType.

Module TransactionStatus.
Inductive t := PENDING | CLEARED | RECONCILED.
#[global] Instance eq_dec : EqDecision t.
Proof. solve_decision. Defined.
End TransactionStatus.

(** The value [decimal(12,2)] with integer part [whole] and [frac]
    hundredths. *)
Definition fixed2 (whole frac : Z) : Z := whole * 100 + frac.

(** A JavaScript [Date] as the services see it: the local calendar day built
    by [new Date(year, monthIndex, day)], the result of the engine's own
    string parse [new Date(s)] (left uninterpreted), or an invalid date. *)
Inductive JsDate :=
  | LocalDay (year month day : Z)
  | DateOfString (s : string)
  | InvalidDate.

Module Account.
Record t := mk {
  name : string;
  type : AccountType.t;
  description : option string;
  balance : Z;
  active : bool
}.
Definition add_balance (v : Z) (a : t) : t :=
  mk (name a) (type a) (description a) (balance a + v) (active a).
End Account.

Module Category.
Record t := mk {
  name : string;
  type : CategoryType.t;
  description : option string;
  parentId : option Z;
  active : bool
}.
End Category.

Module Transaction.
Record t := mk {
  date : JsDate;
  amount : Z;
  description : string;
  reference : option string;
  status : TransactionStatus.t;
  notes : option string;
  debitAccountId : Z;
  creditAccountId : Z;
  categoryId : option Z;
  importBatch : option string;
  originalData : option string
}.
End Transaction.

(** [Partial<Transaction>] over the data columns of the entity: an absent
    key is [None].  The generated key [id], the two timestamps and the
    relation objects are managed by the repository and are not part of a
    patch. *)
Module Patch.
Record t := mk {
  date : option JsDate;
  amount : option Z;
  description : option string;
  reference : option string;
  status : option TransactionStatus.t;
  notes : option string;
  debitAccountId : option Z;
  creditAccountId : option Z;
  categoryId : option Z;
  importBatch : option string;
  originalData : option string
}.
Definition empty : t :=
  mk None None None None None None None None None None None.
End Patch.

(** The argument object of [createTransaction]. *)
Module TransactionData.
Record t := mk {
  date : JsDate;
  amount : Z;
  description : string;
  debitAccountId : Z;
  creditAccountId : Z;
  categoryId : option Z;
  reference : option string;
  notes : option string
}.
End TransactionData.

(** ** The ledger store *)

Record Ledger := mkLedger {
  accounts : gmap Z Account.t;
  transactions : gmap Z Transaction.t;
  categories : gmap Z Category.t
}.

Definition with_accounts (f : gmap Z Account.t → gmap Z Account.t) (l : Ledger) : Ledger :=
  mkLedger (f (accounts l)) (transactions l) (categories l).
Definition with_transactions (f : gmap Z Transaction.t → gmap Z Transaction.t) (l : Ledger) : Ledger :=
  mkLedger (accounts l) (f (transactions l)) (categories l).
Definition with_categories (f : gmap Z Category.t → gmap Z Category.t) (l : Ledger) : Ledger :=
  mkLedger (accounts l) (transactions l) (f (categories l)).

(** [@PrimaryGeneratedColumn]: the key handed to a new row is larger than
    every key in the table (and at least 1). *)
Definition generated_id {A} (m : gmap Z A) : Z :=
  map_fold (λ k _ acc, Z.max acc (k + 1)) 1 m.

(** ** Asynchronous methods: state and exceptions *)

Inductive Outcome (A : Type) :=
  | Return (a : A)
  | Throw (message : string).
Arguments Return {A} a.
Arguments Throw {A} message.

Definition Async (A : Type) : Type := Ledger → Outcome A * Ledger.

Definition ret {A} (a : A) : Async A := λ l, (Return a, l).
Definition throw {A} (message : string) : Async A := λ l, (Throw message, l).
Definition bind {A B} (m : Async A) (k : A → Async B) : Async B :=
  λ l, match m l with
       | (Return a, l') => k a l'
       | (Throw e, l') => (Throw e, l')
       end.
Definition try_catch {A} (m : Async A) (handler : string → Async A) : Async A :=
  λ l, match m l with
       | (Return a, l') => (Return a, l')
       | (Throw e, l') => handler e l'
       end.
Definition get_ledger : Async Ledger := λ l, (Return l, l).
Definition modify (f : Ledger → Ledger) : Async unit := λ l, (Return tt, f l).

Notation "'let*' x := m 'in' k" := (bind m (λ x, k))
  (at level 10, x name, m at level 100, k at level 200, only parsing).
Notation "'await' m 'then' k" := (bind m (λ _, k))
  (at level 10, m at level 100, k at level 200, only parsing).

(** Final ledger and outcome of running a method. *)
Definition outcome {A} (m : Async A) (l : Ledger) : Outcome A := fst (m l).
Definition after {A} (m : Async A) (l : Ledger) : Ledger := snd (m l).

(** Unfolds the monad down to the pair of outcome and ledger. *)
Ltac run :=
  unfold after, outcome, bind, try_catch, ret, throw, modify, get_ledger,
    with_accounts, with_transactions, with_categories in *;
  simpl in *.

(** ** What the store refuses *)

Module Store.

(** A reference column may keep the id it has; an id it is changed to must
    be the key of a row of the table it refers to. *)
Definition reference_holds {A} (table : gmap Z A) (old new : Z) : bool :=
  bool_decide (new = old) || bool_decide (is_Some (table !! new)).

(** The foreign keys of [debitAccountId] and [creditAccountId]
    ([@ManyToOne(() => Account)] with [@JoinColumn]), checked when the
    stored row [old] is overwritten by [new]. *)
Definition accepts (l : Ledger) (old new : Transaction.t) : bool :=
  reference_holds (accounts l) (Transaction.debitAccountId old)
    (Transaction.debitAccountId new)
  && reference_holds (accounts l) (Transaction.creditAccountId old)
       (Transaction.creditAccountId new).

(** The message of a refused write.  Its text is the database driver's and
    is not part of the source; this string stands for it. *)
Definition foreign_key_violation : string :=
  "violates foreign key constraint".

(** The message of the repository for [update] called with no id. *)
Definition empty_criteria : string :=
  "Empty criteria(s) are not allowed for the update method.".

End Store.

(** ** TransactionService *)

Module TransactionService.

(** [accountRepository.increment({ id }, "balance", v)]: one SQL update
    [balance = balance + v]; no row is touched when the id is unknown.  The
    sum is taken to fit the column, so that the store carries the update
    out. *)
Definition increment (id v : Z) : Async unit :=
  modify (with_accounts (alter (Account.add_balance v) id)).
Definition decrement (id v : Z) : Async unit :=
  modify (with_accounts (alter (Account.add_balance (- v)) id)).

Definition updateAccountBalances (debitAccountId creditAccountId amount : Z) : Async unit :=
  await increment debitAccountId amount then
  decrement creditAccountId amount.

Definition new_transaction (d : TransactionData.t) : Transaction.t :=
  Transaction.mk (TransactionData.date d) (TransactionData.amount d)
    (TransactionData.description d) (TransactionData.reference d)
    TransactionStatus.PENDING (TransactionData.notes d)
    (TransactionData.debitAccountId d) (TransactionData.creditAccountId d)
    (TransactionData.categoryId d) None None.

(** Returns the saved row together with its generated id.  Both account
    ids have been looked up when [save] runs, so the row it inserts names
    existing accounts. *)
Definition createTransaction (d : TransactionData.t) : Async (Z * Transaction.t) :=
  let* l := get_ledger in
  match accounts l !! TransactionData.debitAccountId d,
        accounts l !! TransactionData.creditAccountId d with
  | Some _, Some _ =>
      let transaction := new_transaction d in
      let id := generated_id (transactions l) in
      await modify (with_transactions <[ id := transaction ]>) then
      await updateAccountBalances (TransactionData.debitAccountId d)
        (TransactionData.creditAccountId d) (TransactionData.amount d) then
      ret (id, transaction)
  | _, _ => throw "One or both accounts not found"
  end.

(** [a ?? b] on an optional field. *)
Definition nullish {A} (a : option A) (b : A) : A := default b a.

(** [Object.assign(transaction, updates)]. *)
Definition assign (t : Transaction.t) (u : Patch.t) : Transaction.t :=
  Transaction.mk
    (nullish (Patch.date u) (Transaction.date t))
    (nullish (Patch.amount u) (Transaction.amount t))
    (nullish (Patch.description u) (Transaction.description t))
    (from_option Some (Transaction.reference t) (Patch.reference u))
    (nullish (Patch.status u) (Transaction.status t))
    (from_option Some (Transaction.notes t) (Patch.notes u))
    (nullish (Patch.debitAccountId u) (Transaction.debitAccountId t))
    (nullish (Patch.creditAccountId u) (Transaction.creditAccountId t))
    (from_option Some (Transaction.categoryId t) (Patch.categoryId u))
    (from_option Some (Transaction.importBatch t) (Patch.importBatch u))
    (from_option Some (Transaction.originalData t) (Patch.originalData u)).

(** [transactionRepository.save(transaction)] for a row loaded under key
    [id] as [old] and changed to [new]: the row is overwritten, unless the
    store refuses it. *)
Definition save (id : Z) (old new : Transaction.t) : Async Transaction.t :=
  let* l := get_ledger in
  if Store.accepts l old new then
    await modify (with_transactions <[ id := new ]>) then
    ret new
  else throw Store.foreign_key_violation.

(** The guard of [updateTransaction]: some balance field is present. *)
Definition touches_balance (u : Patch.t) : bool :=
  bool_decide (Patch.amount u ≠ None)
  || bool_decide (Patch.debitAccountId u ≠ None)
  || bool_decide (Patch.creditAccountId u ≠ None).

Definition updateTransaction (id : Z) (updates : Patch.t) : Async Transaction.t :=
  let* l := get_ledger in
  match transactions l !! id with
  | None => throw "Transaction not found"
  | Some transaction =>
      await
        (if touches_balance updates then
           (* revert the old posting, then apply the new one *)
           await updateAccountBalances (Transaction.debitAccountId transaction)
             (Transaction.creditAccountId transaction)
             (- Transaction.amount transaction) then
           let newAmount :=
             nullish (Patch.amount updates) (Transaction.amount transaction) in
           let newDebitAccountId :=
             nullish (Patch.debitAccountId updates) (Transaction.debitAccountId transaction) in
           let newCreditAccountId :=
             nullish (Patch.creditAccountId updates) (Transaction.creditAccountId transaction) in
           updateAccountBalances newDebitAccountId newCreditAccountId newAmount
         else ret tt) then
      save id transaction (assign transaction updates)
  end.

Definition deleteTransaction (id : Z) : Async unit :=
  let* l := get_ledger in
  match transactions l !! id with
  | None => throw "Transaction not found"
  | Some transaction =>
      await updateAccountBalances (Transaction.debitAccountId transaction)
        (Transaction.creditAccountId transaction)
        (- Transaction.amount transaction) then
      modify (with_transactions (delete id))
  end.

(** [transactionRepository.update(ids, updates)]: the repository refuses
    an empty list of ids; otherwise it is one SQL update of the rows whose
    key is in [ids], which the store carries out on all of them or, when it
    refuses the new value of one of them, on none. *)
Definition bulkUpdateTransactions (ids : list Z) (updates : Patch.t) : Async unit :=
  if bool_decide (ids = []) then throw Store.empty_criteria
  else
    let* l := get_ledger in
    if bool_decide
         (map_Forall (λ k t, k ∈ ids → Store.accepts l t (assign t updates) = true)
            (transactions l))
    then
      modify (with_transactions
        (map_imap (λ k t, Some (if bool_decide (k ∈ ids) then assign t updates else t))))
    else throw Store.foreign_key_violation.

(** [for (const transaction of transactions) await ...]. *)
Fixpoint for_each {A} (xs : list A) (body : A → Async unit) : Async unit :=
  match xs with
  | [] => ret tt
  | x :: rest => await body x then for_each rest body
  end.

Definition bulkDeleteTransactions (ids : list Z) : Async unit :=
  let* l := get_ledger in
  let found := filter (λ kt, kt.1 ∈ ids) (map_to_list (transactions l)) in
  await for_each found (λ kt,
    updateAccountBalances (Transaction.debitAccountId kt.2)
      (Transaction.creditAccountId kt.2) (- Transaction.amount kt.2)) then
  modify (with_transactions (filter (λ kt, kt.1 ∉ ids))).

(** The value of a [decimal(12,2)] column in a row that the repository has
    loaded: the driver hands the number over as its decimal text, with two
    digits after the point. *)
Definition decimal_text (hundredths : Z) : string :=
  (if hundredths <? 0 then "-" else "")
  +:+ pretty (Z.abs hundredths / 100) +:+ "."
  +:+ (if Z.abs hundredths mod 100 <? 10 then "0" else "")
  +:+ pretty (Z.abs hundredths mod 100).

(** What [getAccountBalance] hands to its caller: the text of the column,
    or a number. *)
Inductive BalanceValue :=
  | Text (value : string)
  | Number (hundredths : Z).

(** [text || 0] for the text of a column, or [undefined] when no row was
    found: a string is falsy only when it is empty. *)
Definition or_zero (balance : option string) : BalanceValue :=
  match balance with
  | Some text => if bool_decide (text = "") then Number 0 else Text text
  | None => Number 0
  end.

(** [account?.balance || 0]. *)
Definition getAccountBalance (accountId : Z) : Async BalanceValue :=
  let* l := get_ledger in
  ret (or_zero ((λ account, decimal_text (Account.balance account))
                  <$> accounts l !! accountId)).

End TransactionService.

(** ** The posting sum of an account *)

(** What one stored transaction contributes to account [x]: its amount when
    [x] is debited, minus its amount when [x] is credited. *)
Definition contribution (x : Z) (t : Transaction.t) : Z :=
  (if decide (Transaction.debitAccountId t = x) then Transaction.amount t else 0)
  - (if decide (Transaction.creditAccountId t = x) then Transaction.amount t else 0).

Definition posting_sum (x : Z) (txs : gmap Z Transaction.t) : Z :=
  map_fold (λ _ t acc, acc + contribution x t) 0 txs.

(** Every stored balance is the posting sum of its account. *)
Definition balanced (l : Ledger) : Prop :=
  ∀ x a, accounts l !! x = Some a → Account.balance a = posting_sum x (transactions l).

(** The operations of the posting engine that the invariant ranges over. *)
Inductive Operation :=
  | Create (data : TransactionData.t)
  | Update (id : Z) (patch : Patch.t)
  | Delete (id : Z).

(** The ledger an operation leaves behind, whether it returned or threw. *)
Definition perform (op : Operation) (l : Ledger) : Ledger :=
  match op with
  | Create data => after (TransactionService.createTransaction data) l
  | Update id patch => after (TransactionService.updateTransaction id patch) l
  | Delete id => after (TransactionService.deleteTransaction id) l
  end.

Definition perform_all (ops : list Operation) (l : Ledger) : Ledger :=
  fold_left (λ acc op, perform op acc) ops l.

(** ** JavaScript runtime functions used by the parsers

    Strings are sequences of code units below 256.  Numbers read by
    [parseFloat] are kept as exact decimal values. *)

Module Js.

(** White space of [String.prototype.trim] among the code units below 256. *)
Definition is_whitespace (c : ascii) : bool :=
  Ascii.is_space c || bool_decide (c = "160"%char).

Fixpoint trimStart (s : string) : string :=
  match s with
  | String c rest => if is_whitespace c then trimStart rest else s
  | EmptyString => EmptyString
  end.

Definition trimEnd (s : string) : string :=
  String.rev (trimStart (String.rev s)).

Definition trim (s : string) : string := trimEnd (trimStart s).

(** [s.split(sep)] for a one-character separator. *)
Fixpoint split (sep : ascii) (s : string) : list string :=
  match s with
  | EmptyString => [EmptyString]
  | String c rest =>
      if bool_decide (c = sep) then EmptyString :: split sep rest
      else match split sep rest with
           | piece :: pieces => String c piece :: pieces
           | [] => [String c EmptyString]
           end
  end.

(** [s.charAt(0)]: the empty string when [s] is empty. *)
Definition charAt0 (s : string) : string :=
  match s with
  | String c _ => String c EmptyString
  | EmptyString => EmptyString
  end.

(** [s.substring(1)]. *)
Definition substring1 (s : string) : string :=
  match s with
  | String _ rest => rest
  | EmptyString => EmptyString
  end.

(** Truthiness of an optional string: [undefined] and [""] are falsy. *)
Definition truthy_string (o : option string) : option string :=
  match o with
  | Some EmptyString => None
  | other => other
  end.

(** Truthiness of an optional number: [undefined] and [0] are falsy. *)
Definition truthy_number (o : option Z) : option Z :=
  match o with
  | Some 0 => None
  | other => other
  end.

Definition digit_value (c : ascii) : option Z :=
  Z.of_nat <$> Ascii.is_nat c.

Definition is_digit (c : ascii) : bool := bool_decide (is_Some (Ascii.is_nat c)).

(** The longest prefix of decimal digits, and what follows it. *)
Fixpoint span_digits (s : string) : string * string :=
  match s with
  | String c rest =>
      if is_digit c then
        let '(ds, tail) := span_digits rest in (String c ds, tail)
      else (EmptyString, s)
  | EmptyString => (EmptyString, EmptyString)
  end.

(** Value of a string of decimal digits, most significant first. *)
Fixpoint digits_value_from (acc : Z) (s : string) : Z :=
  match s with
  | String c rest => digits_value_from (10 * acc + default 0 (digit_value c)) rest
  | EmptyString => acc
  end.
Definition digits_value (s : string) : Z := digits_value_from 0 s.

(** An optional leading sign: whether it is a minus, and the rest. *)
Definition read_sign (s : string) : bool * string :=
  match s with
  | String "-" rest => (true, rest)
  | String "+" rest => (false, rest)
  | _ => (false, s)
  end.

Definition signed (negative : bool) (v : Z) : Z := if negative then - v else v.

(** [parseInt(s)] without a radix, on input with no [0x] prefix: leading
    white space, a sign, then the longest run of decimal digits; [None]
    stands for [NaN]. *)
Definition parseInt (s : string) : option Z :=
  let '(negative, body) := read_sign (trimStart s) in
  let '(ds, _) := span_digits body in
  if bool_decide (ds = EmptyString) then None
  else Some (signed negative (digits_value ds)).

Inductive Number :=
  | NaN
  | Infinity (negative : bool)
  | Finite (value : Q).

Fixpoint starts_with (prefix s : string) : bool :=
  match prefix, s with
  | EmptyString, _ => true
  | String a p, String b rest => bool_decide (a = b) && starts_with p rest
  | String _ _, EmptyString => false
  end.

(** The exponent part [e], [e+] or [e-] followed by digits; 0 when the
    text after the mantissa is no exponent part. *)
Definition read_exponent (s : string) : Z :=
  match s with
  | String c rest =>
      if bool_decide (c = "e"%char) || bool_decide (c = "E"%char) then
        let '(negative, body) := read_sign rest in
        let '(ds, _) := span_digits body in
        if bool_decide (ds = EmptyString) then 0
        else signed negative (digits_value ds)
      else 0
  | EmptyString => 0
  end.

(** [mantissa * 10 ^ exponent] as a reduced fraction. *)
Definition decimal (mantissa exponent : Z) : Q :=
  if 0 <=? exponent then Qred (Qmake (mantissa * 10 ^ exponent) 1)
  else Qred (Qmake mantissa (Z.to_pos (10 ^ (- exponent)))).

(** [parseFloat(s)]: the longest prefix of the trimmed input that is a
    decimal literal. *)
Definition parseFloat (s : string) : Number :=
  let '(negative, body) := read_sign (trimStart s) in
  if starts_with "Infinity" body then Infinity negative
  else
    let '(int_digits, after_int) := span_digits body in
    let '(frac_digits, after_frac) :=
      match after_int with
      | String "." rest => span_digits rest
      | _ => (EmptyString, after_int)
      end in
    if bool_decide (int_digits = EmptyString) && bool_decide (frac_digits = EmptyString)
    then NaN
    else
      let mantissa := signed negative (digits_value (int_digits +:+ frac_digits)) in
      let exponent := read_exponent after_frac - Z.of_nat (String.length frac_digits) in
      Finite (decimal mantissa exponent).

(** *** Regular expressions of the shape used by [parseDate]: a sequence
    of capturing digit groups [(\d{lo,hi})] and literal characters. *)
Inductive RegexItem :=
  | DigitGroup (lo hi : nat)
  | Literal (c : ascii).

Fixpoint string_take (n : nat) (s : string) : string :=
  match n, s with
  | S n', String c rest => String c (string_take n' rest)
  | _, _ => EmptyString
  end.
Fixpoint string_drop (n : nat) (s : string) : string :=
  match n, s with
  | S n', String _ rest => string_drop n' rest
  | _, _ => s
  end.

(** Match the items at the start of [s]; a digit group is greedy and gives
    digits back one at a time, down to its lower bound.  The result is the
    list of captured groups. *)
Fixpoint match_here (items : list RegexItem) (s : string) : option (list string) :=
  match items with
  | [] => Some []
  | Literal c :: rest =>
      match s with
      | String c' s' => if bool_decide (c = c') then match_here rest s' else None
      | EmptyString => None
      end
  | DigitGroup lo hi :: rest =>
      let available := Nat.min hi (String.length (span_digits s).1) in
      (fix backtrack (k : nat) : option (list string) :=
         if (k <? lo)%nat then None
         else match match_here rest (string_drop k s) with
              | Some groups => Some (string_take k s :: groups)
              | None => match k with
                        | O => None
                        | S k' => backtrack k'
                        end
              end) available
  end.

(** [s.match(regex)] for a regex without flags: the leftmost match. *)
Fixpoint regex_match (items : list RegexItem) (s : string) : option (list string) :=
  match match_here items s with
  | Some groups => Some groups
  | None => match s with
            | String _ rest => regex_match items rest
            | EmptyString => None
            end
  end.

(** *** Calendar arithmetic of [new Date(year, monthIndex, day)] *)

(** Day number (days since 1970-01-01) of a proleptic Gregorian date. *)
Definition days_from_civil (y m d : Z) : Z :=
  let y' := if m <=? 2 then y - 1 else y in
  let era := y' / 400 in
  let yoe := y' - era * 400 in
  let doy := (153 * (m + (if 2 <? m then -3 else 9)) + 2) / 5 + d - 1 in
  let doe := yoe * 365 + yoe / 4 - yoe / 100 + doy in
  era * 146097 + doe - 719468.

(** The inverse: the calendar date of a day number. *)
Definition civil_from_days (z : Z) : Z * Z * Z :=
  let z' := z + 719468 in
  let era := z' / 146097 in
  let doe := z' - era * 146097 in
  let yoe := (doe - doe / 1460 + doe / 36524 - doe / 146096) / 365 in
  let doy := doe - (365 * yoe + yoe / 4 - yoe / 100) in
  let mp := (5 * doy + 2) / 153 in
  let d := doy - (153 * mp + 2) / 5 + 1 in
  let m := if mp <? 10 then mp + 3 else mp - 9 in
  (if m <=? 2 then yoe + era * 400 + 1 else yoe + era * 400, m, d).

(** [new Date(year, monthIndex, day)] read back through [getFullYear],
    [getMonth() + 1] and [getDate]: months and days outside their range
    carry over, and a year from 0 to 99 means 1900 + year. *)
Definition new_Date (year monthIndex day : Z) : JsDate :=
  let full_year := if (0 <=? year) && (year <=? 99) then 1900 + year else year in
  let first := days_from_civil (full_year + monthIndex / 12) (monthIndex mod 12 + 1) 1 in
  let '(y, m, d) := civil_from_days (first + day - 1) in
  LocalDay y m d.

End Js.

(** ** utils/fileParser.ts: the QIF parser *)

Module FileParser.

(** The object [parseQif] fills in while it reads an entry
    ([Partial<QifTransaction>]). *)
Record PartialQif := mkPartial {
  p_date : option string;
  p_amount : option Js.Number;
  p_description : option string;
  p_category : option string;
  p_cleared : option string;
  p_reference : option string
}.

(** A record of the result.  [description] is declared a string, but no
    [P] or [M] line leaves it undefined. *)
Record QifTransaction := mkQif {
  date : string;
  amount : Js.Number;
  description : option string;
  category : option string;
  cleared : option string;
  reference : option string
}.

Definition empty_entry : PartialQif := mkPartial None None None None None None.

Definition newline : ascii := "010"%char.

(** The body of the inner loop: one line of an entry. *)
Definition read_line (t : PartialQif) (line : string) : PartialQif :=
  if bool_decide (Js.trim line = "") then t
  else
    let code := Js.charAt0 line in
    let value := Js.trim (Js.substring1 line) in
    if bool_decide (code = "D") then
      mkPartial (Some value) (p_amount t) (p_description t) (p_category t)
        (p_cleared t) (p_reference t)
    else if bool_decide (code = "T") then
      mkPartial (p_date t) (Some (Js.parseFloat value)) (p_description t)
        (p_category t) (p_cleared t) (p_reference t)
    else if bool_decide (code = "P") || bool_decide (code = "M") then
      let joined :=
        match Js.truthy_string (p_description t) with
        | Some previous => previous +:+ " - " +:+ value
        | None => value
        end in
      mkPartial (p_date t) (p_amount t) (Some joined) (p_category t)
        (p_cleared t) (p_reference t)
    else if bool_decide (code = "L") then
      mkPartial (p_date t) (p_amount t) (p_description t) (Some value)
        (p_cleared t) (p_reference t)
    else if bool_decide (code = "C") then
      mkPartial (p_date t) (p_amount t) (p_description t) (p_category t)
        (Some value) (p_reference t)
    else if bool_decide (code = "N") then
      mkPartial (p_date t) (p_amount t) (p_description t) (p_category t)
        (p_cleared t) (Some value)
    else t.

Definition read_entry (entry : string) : PartialQif :=
  fold_left read_line (Js.split newline (Js.trim entry)) empty_entry.

(** [if (transaction.date && transaction.amount !== undefined)]. *)
Definition complete (t : PartialQif) : option QifTransaction :=
  match Js.truthy_string (p_date t), p_amount t with
  | Some d, Some a =>
      Some (mkQif d a (p_description t) (p_category t) (p_cleared t) (p_reference t))
  | _, _ => None
  end.

Definition parseQif (qifContent : string) : list QifTransaction :=
  let entries :=
    filter (λ entry, Js.trim entry ≠ "") (Js.split "^"%char qifContent) in
  omap (λ entry, complete (read_entry entry)) entries.

End FileParser.

(** ** ImportService *)

Module ImportService.

Record ImportMapping := mkMapping {
  dateField : string;
  amountField : string;
  descriptionField : string;
  categoryField : option string;
  referenceField : option string
}.

(** An element of [preview.transactions], as the preview methods build it. *)
Record Candidate := mkCandidate {
  originalIndex : Z;
  date : JsDate;
  amount : Z;
  description : string;
  reference : option string;
  category : option string;
  isDebit : bool
}.

Record ImportPreview := mkPreview {
  transactions : list Candidate;
  mappings : ImportMapping;
  preview_errors : list string;
  warnings : list string
}.

(** The value [importTransactions] resolves to. *)
Record ImportResult := mkResult {
  success : Z;
  errors : list string
}.

(** *** parseDate *)

Definition formats : list (list Js.RegexItem) :=
  [ [Js.DigitGroup 1 2; Js.Literal "/"; Js.DigitGroup 1 2; Js.Literal "/"; Js.DigitGroup 2 4];
    [Js.DigitGroup 1 2; Js.Literal "-"; Js.DigitGroup 1 2; Js.Literal "-"; Js.DigitGroup 2 4];
    [Js.DigitGroup 4 4; Js.Literal "-"; Js.DigitGroup 1 2; Js.Literal "-"; Js.DigitGroup 1 2] ].

(** The date built from the three groups of a match of the format at
    position [index] of [formats]. *)
Definition date_of_match (index : nat) (groups : list string) : JsDate :=
  match groups with
  | [g1; g2; g3] =>
      match Js.parseInt g3, Js.parseInt g1, Js.parseInt g2 with
      | Some year, Some month, Some day =>
          let year :=
            if year <? 100 then year + (if year <? 50 then 2000 else 1900)
            else year in
          let '(month, day) :=
            if (index =? 2)%nat then (day, month) else (month, day) in
          Js.new_Date year (month - 1) day
      | _, _, _ => InvalidDate
      end
  | _ => InvalidDate
  end.

(** [for (const format of formats)], from position [index] on. *)
Fixpoint parseDate_from (index : nat) (remaining : list (list Js.RegexItem))
    (dateString : string) : JsDate :=
  match remaining with
  | [] => DateOfString dateString
  | format :: rest =>
      match Js.regex_match format dateString with
      | Some groups => date_of_match index groups
      | None => parseDate_from (S index) rest dateString
      end
  end.

Definition parseDate (dateString : string) : JsDate :=
  parseDate_from 0 formats dateString.

(** *** Find-or-create helpers *)

(** [repository.findOne({ where })]: some row that satisfies the
    condition, with its key. *)
Definition findOne {A} (P : A → Prop) `{∀ a, Decision (P a)}
    (table : gmap Z A) : option (Z * A) :=
  head (filter (λ row, P row.2) (map_to_list table)).

(** [accountRepository.save] of a new entity: the row is stored under a
    generated key. *)
Definition save_account (a : Account.t) : Async Z :=
  let* l := get_ledger in
  let id := generated_id (accounts l) in
  await modify (with_accounts <[ id := a ]>) then
  ret id.

Definition save_category (c : Category.t) : Async Z :=
  let* l := get_ledger in
  let id := generated_id (categories l) in
  await modify (with_categories <[ id := c ]>) then
  ret id.

(** [`${prefix}${categoryName ? ` - ${categoryName}` : ''}`]. *)
Definition account_name (prefix : string) (categoryName : option string) : string :=
  match Js.truthy_string categoryName with
  | Some c => prefix +:+ " - " +:+ c
  | None => prefix
  end.

Definition getOrCreateAccount (accountName : string) (type : AccountType.t)
    (description : string) : Async Z :=
  let* l := get_ledger in
  match findOne (λ a, Account.name a = accountName ∧ Account.type a = type) (accounts l) with
  | Some (id, _) => ret id
  | None => save_account (Account.mk accountName type (Some description) 0 true)
  end.

Definition getOrCreateExpenseAccount (categoryName : option string) : Async Z :=
  getOrCreateAccount (account_name "Expenses" categoryName) AccountType.EXPENSE
    ("Auto-created expense account for "
       +:+ default "general expenses" (Js.truthy_string categoryName)).

Definition getOrCreateIncomeAccount (categoryName : option string) : Async Z :=
  getOrCreateAccount (account_name "Income" categoryName) AccountType.INCOME
    ("Auto-created income account for "
       +:+ default "general income" (Js.truthy_string categoryName)).

Definition getOrCreateCategory (categoryName : string) (type : CategoryType.t) : Async Z :=
  let* l := get_ledger in
  match findOne (λ c, Category.name c = categoryName ∧ Category.type c = type) (categories l) with
  | Some (id, _) => ret id
  | None =>
      save_category (Category.mk categoryName type (Some "Auto-created from import") None true)
  end.

(** *** importTransactions *)

(** [a || await b]. *)
Definition or_else (a : option Z) (b : Async Z) : Async Z :=
  match Js.truthy_number a with
  | Some id => ret id
  | None => b
  end.

(** The body of the [try] block for one candidate. *)
Definition post_row (accountId : Z) (defaultCreditAccountId defaultDebitAccountId : option Z)
    (importBatch : string) (transaction : Candidate) : Async unit :=
  let* ids :=
    (if isDebit transaction then
       let* debitAccountId :=
         or_else defaultDebitAccountId (getOrCreateExpenseAccount (category transaction)) in
       ret (debitAccountId, accountId)
     else
       let* creditAccountId :=
         or_else defaultCreditAccountId (getOrCreateIncomeAccount (category transaction)) in
       ret (accountId, creditAccountId)) in
  let* categoryId :=
    (match Js.truthy_string (category transaction) with
     | Some c =>
         let* id := getOrCreateCategory c
           (if isDebit transaction then CategoryType.EXPENSE else CategoryType.INCOME) in
         ret (Some id)
     | None => ret None
     end) in
  await TransactionService.createTransaction
    (TransactionData.mk (date transaction) (amount transaction)
       (description transaction) ids.1 ids.2 categoryId (reference transaction)
       (Some ("Imported from " +:+ importBatch))) then
  ret tt.

(** [`Row ${transaction.originalIndex + 1}: ${message}`]. *)
Definition row_error (transaction : Candidate) (message : string) : string :=
  "Row " +:+ pretty (originalIndex transaction + 1) +:+ ": " +:+ message.

(** The [for] loop, with its two accumulators. *)
Fixpoint import_rows (accountId : Z) (defaultCreditAccountId defaultDebitAccountId : option Z)
    (importBatch : string) (rows : list Candidate)
    (successCount : Z) (errors : list string) : Async (Z * list string) :=
  match rows with
  | [] => ret (successCount, errors)
  | transaction :: rest =>
      let* acc :=
        try_catch
          (await post_row accountId defaultCreditAccountId defaultDebitAccountId
                   importBatch transaction then
           ret (successCount + 1, errors))
          (λ message, ret (successCount, errors ++ [row_error transaction message])) in
      import_rows accountId defaultCreditAccountId defaultDebitAccountId importBatch
        rest acc.1 acc.2
  end.

(** [now] is the reading of [Date.now()] at the start of the run.  The two
    look-ups of the default accounts are reads whose results are unused. *)
Definition importTransactions (preview : ImportPreview) (accountId : Z)
    (defaultCreditAccountId defaultDebitAccountId : option Z) (now : Z) : Async ImportResult :=
  let* l := get_ledger in
  match accounts l !! accountId with
  | None => throw "Target account not found"
  | Some _ =>
      let importBatch := "import_" +:+ pretty now in
      let* acc := import_rows accountId defaultCreditAccountId defaultDebitAccountId
                    importBatch (transactions preview) 0 [] in
      ret (mkResult acc.1 acc.2)
  end.

End ImportService.

(** ** Auxiliary definitions for the statements *)

(** Change of the balance of account [x] by one posting. *)
Definition posting_delta (debitAccountId creditAccountId amount x : Z) : Z :=
  (if decide (debitAccountId = x) then amount else 0)
  - (if decide (creditAccountId = x) then amount else 0).

(** The arguments of [createTransaction] that repeat a stored row. *)
Definition same_parameters (t : Transaction.t) : TransactionData.t :=
  TransactionData.mk (Transaction.date t) (Transaction.amount t)
    (Transaction.description t) (Transaction.debitAccountId t)
    (Transaction.creditAccountId t) (Transaction.categoryId t)
    (Transaction.reference t) (Transaction.notes t).

(** A patch that changes the description and nothing else. *)
Definition description_only (text : string) : Patch.t :=
  Patch.mk None None (Some text) None None None None None None None None.

(** A patch that moves the debit side to account 9. *)
Definition debit_to_unknown_account : Patch.t :=
  Patch.mk None None None None None None (Some 9) None None None None.

(** A small ledger used to run the methods: a bank account (1), an expense
    account (2) and one stored purchase of 50.00. *)
Definition demo_purchase : Transaction.t :=
  Transaction.mk (LocalDay 2024 12 1) (fixed2 50 0) "Grocery Store" None
    TransactionStatus.PENDING None 2 1 None None None.

Definition demo_ledger : Ledger :=
  mkLedger
    (<[1 := Account.mk "Checking" AccountType.ASSET_BANK None (fixed2 (-50) 0) true]>
       (<[2 := Account.mk "Groceries" AccountType.EXPENSE None (fixed2 50 0) true]> ∅))
    (<[1 := demo_purchase]> ∅)
    ∅.

Definition demo_operations : list Operation :=
  [ Create (TransactionData.mk (LocalDay 2024 12 2) (fixed2 12 50) "Bakery" 2 1 None None None);
    Update 1 (Patch.mk None (Some (fixed2 75 0)) None None None None None None None None None);
    Delete 2;
    Update 1 (Patch.mk None None None None None None (Some 1) None None None None);
    Create (TransactionData.mk (LocalDay 2024 12 3) (fixed2 1 0) "Nowhere" 9 1 None None None) ].

(** A posting whose debit and credit side are the same account. *)
Definition self_posting : TransactionData.t :=
  TransactionData.mk (LocalDay 2024 12 4) (fixed2 100 0) "Self transfer" 1 1 None None None.

(** The QIF entry of the parser example, line by line. *)
Definition qif_line_break : string := String FileParser.newline "".

Definition qif_grocery_entry : string :=
  "D12/1/2024" +:+ qif_line_break +:+
  "T-50.00" +:+ qif_line_break +:+
  "PGrocery Store" +:+ qif_line_break +:+
  "LFood" +:+ qif_line_break +:+
  "CX" +:+ qif_line_break +:+
  "^".

(** *** Import runs, row by row *)

Section import_rows_by_row.
Import ImportService.
Context (accountId : Z) (defaultCreditAccountId defaultDebitAccountId : option Z)
  (importBatch : string).

(** The outcome of each candidate when the candidates are posted one after
    the other, each on the ledger its predecessors left behind, whatever
    their outcome was. *)
Fixpoint row_outcomes (rows : list Candidate) (l : Ledger) : list (Candidate * Outcome unit) :=
  match rows with
  | [] => []
  | row :: rest =>
      let result :=
        post_row accountId defaultCreditAccountId defaultDebitAccountId importBatch row l in
      (row, result.1) :: row_outcomes rest result.2
  end.

(** The ledger after the candidates have been posted in this way. *)
Fixpoint ledger_after_rows (rows : list Candidate) (l : Ledger) : Ledger :=
  match rows with
  | [] => l
  | row :: rest =>
      ledger_after_rows rest
        (after (post_row accountId defaultCreditAccountId defaultDebitAccountId
                  importBatch row) l)
  end.

End import_rows_by_row.

Definition is_posted {A} (o : Outcome A) : bool :=
  match o with Return _ => true | Throw _ => false end.

(** Number of candidates whose posting returned. *)
Definition posted_count (outcomes : list (ImportService.Candidate * Outcome unit)) : Z :=
  Z.of_nat (length (filter (λ ro, is_posted ro.2) outcomes)).

(** The row-indexed messages of the candidates whose posting threw, in
    order. *)
Definition failure_messages (outcomes : list (ImportService.Candidate * Outcome unit))
    : list string :=
  omap (λ ro, match ro.2 with
              | Throw message => Some (ImportService.row_error ro.1 message)
              | Return _ => None
              end) outcomes.

(** An import preview of three candidates for the bank account of
    [demo_ledger]: two purchases and one salary payment. *)
Definition demo_mapping : ImportService.ImportMapping :=
  ImportService.mkMapping "date" "amount" "description" (Some "category") (Some "reference").

Definition demo_preview : ImportService.ImportPreview :=
  ImportService.mkPreview
    [ ImportService.mkCandidate 0 (LocalDay 2024 12 1) (fixed2 50 0) "Grocery Store"
        None (Some "Food") true;
      ImportService.mkCandidate 1 (LocalDay 2024 12 2) (fixed2 2500 0) "Payroll Deposit"
        None (Some "Salary") false;
      ImportService.mkCandidate 2 (LocalDay 2024 12 3) (fixed2 25 0) "Gas Station"
        None (Some "Transportation") true ]
    demo_mapping [] [].

(** The preview with one income candidate of 100.00 in category Salary. *)
Definition salary_candidate (index : Z) (date : JsDate) (description : string)
    (reference : option string) : ImportService.Candidate :=
  ImportService.mkCandidate index date (fixed2 100 0) description reference
    (Some "Salary") false.

Definition salary_preview (index : Z) (date : JsDate) (description : string)
    (reference : option string) (mapping : ImportService.ImportMapping)
    : ImportService.ImportPreview :=
  ImportService.mkPreview [salary_candidate index date description reference] mapping [] [].

(** The account that [getOrCreateIncomeAccount] provisions for the category
    Salary, with a given balance. *)
Definition salary_income_account (balance : Z) : Account.t :=
  Account.mk "Income - Salary" AccountType.INCOME
    (Some "Auto-created income account for Salary") balance true.

(** A ledger with a third account, used to run updates that move a posting
    from one account to another. *)
Definition three_account_ledger : Ledger :=
  with_accounts
    <[3 := Account.mk "Dining" AccountType.EXPENSE None 0 true]> demo_ledger.

(** Sum of the contributions of a list of stored rows to account [x]. *)
Definition contribution_of_rows (x : Z) (rows : list (Z * Transaction.t)) : Z :=
  foldr (λ row acc, acc + contribution x row.2) 0 rows.

(** Every stored transaction names two existing accounts. *)
Definition referential (l : Ledger) : Prop :=
  ∀ id t, transactions l !! id = Some t →
    is_Some (accounts l !! Transaction.debitAccountId t)
    ∧ is_Some (accounts l !! Transaction.creditAccountId t).

(** The sum of all stored balances. *)
Definition total_balance (l : Ledger) : Z :=
  map_fold (λ _ a acc, acc + Account.balance a) 0 (accounts l).

(** Sum of [f] over the keys of a table. *)
Definition sum_over_keys {A} (f : Z → Z) (table : gmap Z A) : Z :=
  map_fold (λ k _ acc, acc + f k) 0 table.





(** A patch that sets the amount to 75.00. *)
Definition amount_to_75 : Patch.t :=
  Patch.mk None (Some (fixed2 75 0)) None None None None None None None None None.

(** A method keeps [I] when the ledger it leaves satisfies [I] whenever the
    ledger it started from did, whether it returns or throws. *)
Definition keeps (I : Ledger → Prop) {A} (m : Async A) : Prop :=
  ∀ l, I l → I (after m l).

(** The ledger [later] has all that [earlier] has: every transaction row
    and every category as it was, and every account under its key with
    its name and type (the balance may differ). *)
Definition has_all_of (earlier later : Ledger) : Prop :=
  (∀ id t, transactions earlier !! id = Some t → transactions later !! id = Some t)
  ∧ (∀ k c, categories earlier !! k = Some c → categories later !! k = Some c)
  ∧ (∀ x a, accounts earlier !! x = Some a →
       ∃ a', accounts later !! x = Some a'
             ∧ Account.name a' = Account.name a ∧ Account.type a' = Account.type a).

(** A preview that holds one candidate. *)
Definition single_candidate_preview (candidate : ImportService.Candidate)
    (mapping : ImportService.ImportMapping) : ImportService.ImportPreview :=
  ImportService.mkPreview [candidate] mapping [] [].

(** ** utils/fileParser.ts: the CSV parser *)

Module Csv.

(** [s.split(separator)] for a separator string: the pieces between the
    occurrences of the separator, found from left to right; with the empty
    separator, the code units of [s] one by one.  [skip] counts the
    characters of a separator occurrence still to pass over, [current] is
    the piece read so far, last character first. *)
Fixpoint split_scan (separator : string) (skip : nat) (current : string) (s : string)
    : list string :=
  match s with
  | EmptyString => [String.rev current]
  | String c rest =>
      match skip with
      | S k => split_scan separator k current rest
      | O =>
          if Js.starts_with separator s then
            String.rev current
              :: split_scan separator (String.length separator - 1) EmptyString rest
          else split_scan separator 0 (String c current) rest
      end
  end.

Fixpoint code_units (s : string) : list string :=
  match s with
  | EmptyString => []
  | String c rest => String c EmptyString :: code_units rest
  end.

Definition split (separator : string) (s : string) : list string :=
  if bool_decide (separator = EmptyString) then code_units s
  else split_scan separator 0 EmptyString s.

(** The replacement of every double quote character by nothing. *)
Fixpoint remove_quotes (s : string) : string :=
  match s with
  | EmptyString => EmptyString
  | String c rest =>
      if bool_decide (c = "034"%char) then remove_quotes rest
      else String c (remove_quotes rest)
  end.

(** The cells of a line: it is split at the delimiter, and each piece is
    trimmed and then stripped of its double quotes. *)
Definition cells (delimiter : string) (line : string) : list string :=
  (λ v, remove_quotes (Js.trim v)) <$> split delimiter line.

(** [transaction[header] = value] on a plain object whose values are
    strings: the own property is set, except for the key [__proto__],
    whose setter ignores a string. *)
Definition set_field (transaction : gmap string string) (header value : string)
    : gmap string string :=
  if bool_decide (header = "__proto__") then transaction
  else <[header := value]> transaction.

(** The inner loop: [j] runs while it is below both lengths. *)
Definition row_of (headers values : list string) : gmap string string :=
  fold_left (λ transaction hv, set_field transaction hv.1 hv.2) (zip headers values) ∅.

(** A row is the object of its own properties ([CsvTransaction]). *)
Definition parseCsv (csvContent : string) (delimiter : string) : list (gmap string string) :=
  let lines := Js.split FileParser.newline (Js.trim csvContent) in
  if (length lines <? 2)%nat then []
  else
    match lines with
    | [] => []
    | first :: others =>
        let headers := cells delimiter first in
        (λ line, row_of headers (cells delimiter line)) <$> others
    end.

(** The default value of the second parameter. *)
Definition default_delimiter : string := ",".

End Csv.

(** The CSV text of the parser example: a header and one data line. *)
Definition csv_two_column_example : string :=
  "Date,Amount" +:+ qif_line_break +:+ "1/1/2024,-10" +:+ qif_line_break.

(** Whether a character occurs in a string. *)
Fixpoint occurs (c : ascii) (s : string) : bool :=
  match s with
  | EmptyString => false
  | String c' rest => bool_decide (c = c') || occurs c rest
  end.

(** The lines of a QIF text as [parseQif] sees them: the lines of each of
    its entries, after the entry has been trimmed. *)
Definition qif_lines (qifContent : string) : list string :=
  entry ← Js.split "^"%char qifContent;
  Js.split FileParser.newline (Js.trim entry).

(** ** Number operations used by the preview *)

Module JsMath.

(** [Math.abs]. *)
Definition abs (n : Js.Number) : Js.Number :=
  match n with
  | Js.NaN => Js.NaN
  | Js.Infinity _ => Js.Infinity false
  | Js.Finite q => Js.Finite (Qmake (Z.abs (Qnum q)) (Qden q))
  end.

(** [n < 0]. *)
Definition is_negative (n : Js.Number) : bool :=
  match n with
  | Js.NaN => false
  | Js.Infinity negative => negative
  | Js.Finite q => Qnum q <? 0
  end.

(** [isNaN(n)]. *)
Definition isNaN (n : Js.Number) : bool :=
  match n with Js.NaN => true | _ => false end.

(** [n === 0]. *)
Definition is_zero (n : Js.Number) : bool :=
  match n with Js.Finite q => Qnum q =? 0 | _ => false end.

End JsMath.

(** ** ImportService: the QIF preview *)

Module Preview.

(** An element of the [transactions] of a preview, as [previewQifImport]
    builds it; [description] is undefined for a record without payee and
    memo. *)
Record Candidate := mkCandidate {
  originalIndex : Z;
  date : JsDate;
  amount : Js.Number;
  description : option string;
  reference : option string;
  category : option string;
  isDebit : bool
}.

Record t := mk {
  transactions : list Candidate;
  mappings : ImportService.ImportMapping;
  errors : list string;
  warnings : list string
}.

(** [isNaN(date.getTime())]: a date built from year, month and day is
    valid; for a date built by the engine's own parser, [parses] tells
    whether the engine accepted the string. *)
Definition invalid_date (parses : string → bool) (d : JsDate) : bool :=
  match d with
  | LocalDay _ _ _ => false
  | DateOfString s => negb (parses s)
  | InvalidDate => true
  end.

Definition candidate_of (index : nat) (qifTrans : FileParser.QifTransaction) : Candidate :=
  mkCandidate (Z.of_nat index)
    (ImportService.parseDate (FileParser.date qifTrans))
    (JsMath.abs (FileParser.amount qifTrans))
    (FileParser.description qifTrans)
    (FileParser.reference qifTrans)
    (FileParser.category qifTrans)
    (JsMath.is_negative (FileParser.amount qifTrans)).

(** The text of [qifTrans.amount] in the message, which is only built for a
    number that is not a number or is zero. *)
Definition rejected_amount_text (n : Js.Number) : string :=
  if JsMath.isNaN n then "NaN" else "0".

(** The messages the callback pushes for one record. *)
Definition row_messages (parses : string → bool) (index : nat)
    (qifTrans : FileParser.QifTransaction) : list string :=
  let transaction := candidate_of index qifTrans in
  (if invalid_date parses (date transaction)
   then ["Invalid date format at row " +:+ pretty (Z.of_nat index + 1) +:+ ": "
           +:+ FileParser.date qifTrans]
   else [])
  ++ (if JsMath.isNaN (amount transaction) || JsMath.is_zero (amount transaction)
      then ["Invalid amount at row " +:+ pretty (Z.of_nat index + 1) +:+ ": "
              +:+ rejected_amount_text (FileParser.amount qifTrans)]
      else []).

Definition qif_mappings : ImportService.ImportMapping :=
  ImportService.mkMapping "date" "amount" "description" (Some "category") (Some "reference").

Definition previewQifImport (parses : string → bool) (qifContent : string) (accountId : Z)
    : Async t :=
  let parsedTransactions := FileParser.parseQif qifContent in
  let* l := get_ledger in
  let account_errors :=
    match accounts l !! accountId with
    | None => ["Target account not found"]
    | Some _ => []
    end in
  ret (mk (imap candidate_of parsedTransactions)
          qif_mappings
          (account_errors ++ mjoin (imap (row_messages parses) parsedTransactions))
          []).

(** What the preview checks on a record. *)
Definition acceptable (parses : string → bool) (qifTrans : FileParser.QifTransaction) : bool :=
  negb (invalid_date parses (ImportService.parseDate (FileParser.date qifTrans)))
  && negb (JsMath.isNaN (FileParser.amount qifTrans))
  && negb (JsMath.is_zero (FileParser.amount qifTrans)).

End Preview.

(** The number an import candidate stands for: its amount, negated when it
    is a debit. *)
Definition signed_amount (c : Preview.Candidate) : Js.Number :=
  if Preview.isDebit c then
    match Preview.amount c with
    | Js.NaN => Js.NaN
    | Js.Infinity negative => Js.Infinity (negb negative)
    | Js.Finite q => Js.Finite (Qmake (- Qnum q) (Qden q))
    end
  else Preview.amount c.

(** A QIF text with three entries: a purchase, an entry with amount zero and
    an entry whose date and amount cannot be read. *)
Definition qif_with_bad_entries : string :=
  qif_grocery_entry +:+ qif_line_break +:+
  "D12/2/2024" +:+ qif_line_break +:+ "T0" +:+ qif_line_break +:+ "^" +:+
  "Dsoon" +:+ qif_line_break +:+ "Tabc" +:+ qif_line_break +:+ "^".

(** Whether a string holds a decimal digit, and whether it holds nothing
    else. *)
Fixpoint has_digit (s : string) : bool :=
  match s with
  | EmptyString => false
  | String c rest => Js.is_digit c || has_digit rest
  end.

Fixpoint digits_only (s : string) : bool :=
  match s with
  | EmptyString => true
  | String c rest => Js.is_digit c && digits_only rest
  end.

(** A regular expression item that is a digit group of at least one digit,
    or a literal. *)
Definition proper_item (item : Js.RegexItem) : Prop :=
  match item with
  | Js.DigitGroup lo _ => (1 ≤ lo)%nat
  | Js.Literal _ => True
  end.

Definition is_group (item : Js.RegexItem) : bool :=
  match item with Js.DigitGroup _ _ => true | Js.Literal _ => false end.

(** ** ImportService: the CSV preview *)

Module CsvPreview.

(** The names every plain object inherits from [Object.prototype]. *)
Definition inherited_names : list string :=
  [ "constructor"; "__defineGetter__"; "__defineSetter__"; "hasOwnProperty";
    "__lookupGetter__"; "__lookupSetter__"; "isPrototypeOf"; "propertyIsEnumerable";
    "toString"; "valueOf"; "__proto__"; "toLocaleString" ].

(** The value of [csvRow[key]]: the string of an own property, else a
    member inherited from the prototype, else undefined. *)
Inductive Property :=
  | Own (value : string)
  | Inherited (name : string)
  | Undefined.

Definition get (csvRow : gmap string string) (key : string) : Property :=
  match csvRow !! key with
  | Some value => Own value
  | None => if bool_decide (key ∈ inherited_names) then Inherited key else Undefined
  end.

(** A field of a candidate that is read off the row without a check: a
    string, or an inherited member. *)
Inductive Field :=
  | Text (value : string)
  | Member (name : string).

Record Candidate := mkCandidate {
  originalIndex : Z;
  date : JsDate;
  amount : Js.Number;
  description : Field;
  reference : option Field;
  category : option Field;
  isDebit : bool;
  originalData : gmap string string
}.

Record t := mk {
  transactions : list Candidate;
  mappings : ImportService.ImportMapping;
  errors : list string;
  warnings : list string
}.

(** The replacement of every comma and dollar sign by nothing. *)
Fixpoint remove_separators (s : string) : string :=
  match s with
  | EmptyString => EmptyString
  | String c rest =>
      if bool_decide (c = ","%char) || bool_decide (c = "$"%char)
      then remove_separators rest
      else String c (remove_separators rest)
  end.

(** The amount of a row: the cleaned text of the field is parsed, [0] being
    parsed in place of an empty or missing text; the call of [replace] on
    an inherited member is a type error.  The texts of the type errors are
    the engine's. *)
Definition amount_of (p : Property) : Outcome Js.Number :=
  match p with
  | Own value =>
      let cleaned := remove_separators value in
      Return (Js.parseFloat (if bool_decide (cleaned = "") then "0" else cleaned))
  | Undefined => Return (Js.parseFloat "0")
  | Inherited _ => Throw "csvRow[mappings.amountField]?.replace is not a function"
  end.

(** [this.parseDate(csvRow[mappings.dateField])]: [match] is called on the
    value, which is a type error unless the value is a string. *)
Definition date_of (p : Property) : Outcome JsDate :=
  match p with
  | Own value => Return (ImportService.parseDate value)
  | Undefined => Throw "Cannot read properties of undefined (reading 'match')"
  | Inherited _ => Throw "dateString.match is not a function"
  end.

(** [csvRow[field] || '']. *)
Definition text_or_empty (p : Property) : Field :=
  match p with
  | Own value => Text value
  | Inherited name => Member name
  | Undefined => Text ""
  end.

(** [field ? csvRow[field] : undefined]. *)
Definition optional_field (csvRow : gmap string string) (field : option string)
    : option Field :=
  match Js.truthy_string field with
  | Some key =>
      match get csvRow key with
      | Own value => Some (Text value)
      | Inherited name => Some (Member name)
      | Undefined => None
      end
  | None => None
  end.

(** The text of [csvRow[field]] inside a message. *)
Definition shown (p : Property) : string :=
  match p with
  | Own value => value
  | Inherited name => name
  | Undefined => "undefined"
  end.

(** The callback of [map] for one row: the candidate and the messages it
    pushes, or the type error it throws. *)
Definition read_row (parses : string → bool) (mappings : ImportService.ImportMapping)
    (index : nat) (csvRow : gmap string string) : Outcome (Candidate * list string) :=
  match amount_of (get csvRow (ImportService.amountField mappings)) with
  | Throw message => Throw message
  | Return amount =>
      match date_of (get csvRow (ImportService.dateField mappings)) with
      | Throw message => Throw message
      | Return date =>
          let transaction :=
            mkCandidate (Z.of_nat index) date (JsMath.abs amount)
              (text_or_empty (get csvRow (ImportService.descriptionField mappings)))
              (optional_field csvRow (ImportService.referenceField mappings))
              (optional_field csvRow (ImportService.categoryField mappings))
              (JsMath.is_negative amount) csvRow in
          Return
            (transaction,
             (if Preview.invalid_date parses date
              then ["Invalid date format at row " +:+ pretty (Z.of_nat index + 2) +:+ ": "
                      +:+ shown (get csvRow (ImportService.dateField mappings))]
              else [])
             ++ (if JsMath.isNaN (JsMath.abs amount) || JsMath.is_zero (JsMath.abs amount)
                 then ["Invalid amount at row " +:+ pretty (Z.of_nat index + 2) +:+ ": "
                         +:+ shown (get csvRow (ImportService.amountField mappings))]
                 else []))
      end
  end.

(** [parsedData.map(callback)] from position [index] on: the candidates and
    the messages in the order they are pushed; the first type error ends
    it. *)
Fixpoint read_rows (parses : string → bool) (mappings : ImportService.ImportMapping)
    (index : nat) (rows : list (gmap string string))
    : Outcome (list Candidate * list string) :=
  match rows with
  | [] => Return ([], [])
  | csvRow :: rest =>
      match read_row parses mappings index csvRow with
      | Throw message => Throw message
      | Return (transaction, messages) =>
          match read_rows parses mappings (S index) rest with
          | Throw message => Throw message
          | Return (transactions, more) => Return (transaction :: transactions, messages ++ more)
          end
      end
  end.

(** The check of the mapping against the keys of the first row. *)
Definition mapping_errors (mappings : ImportService.ImportMapping)
    (rows : list (gmap string string)) : list string :=
  match rows with
  | [] => []
  | firstRow :: _ =>
      (if bool_decide (is_Some (firstRow !! ImportService.dateField mappings)) then []
       else ["Date field '" +:+ ImportService.dateField mappings +:+ "' not found in CSV"])
      ++ (if bool_decide (is_Some (firstRow !! ImportService.amountField mappings)) then []
          else ["Amount field '" +:+ ImportService.amountField mappings
                  +:+ "' not found in CSV"])
      ++ (if bool_decide (is_Some (firstRow !! ImportService.descriptionField mappings))
          then []
          else ["Description field '" +:+ ImportService.descriptionField mappings
                  +:+ "' not found in CSV"])
  end.

Definition previewCsvImport (parses : string → bool) (csvContent : string)
    (mappings : ImportService.ImportMapping) (accountId : Z) : Async t :=
  let parsedData := Csv.parseCsv csvContent Csv.default_delimiter in
  let* l := get_ledger in
  let account_errors :=
    match accounts l !! accountId with
    | None => ["Target account not found"]
    | Some _ => []
    end in
  match read_rows parses mappings 0 parsedData with
  | Throw message => throw message
  | Return (transactions, messages) =>
      ret (mk transactions mappings
             (account_errors ++ mapping_errors mappings parsedData ++ messages) [])
  end.

(** The rows the callback can read: the date field is an own property, and
    the amount field is an own property or is not an inherited name. *)
Definition readable (mappings : ImportService.ImportMapping)
    (csvRow : gmap string string) : Prop :=
  is_Some (csvRow !! ImportService.dateField mappings)
  ∧ (csvRow !! ImportService.amountField mappings = None →
     ImportService.amountField mappings ∉ inherited_names).

End CsvPreview.

(** A CSV text with a priced line and a line that is too short to have a
    date, under the header Amount, Date. *)
Definition csv_with_short_line : string :=
  "Amount,Date" +:+ qif_line_break +:+ "$1,234.50" +:+ qif_line_break +:+ "7".

Definition csv_mapping : ImportService.ImportMapping :=
  ImportService.mkMapping "Date" "Amount" "Description" None None.

(** * Properties *)

(** ** Generated keys are unused *)

Lemma generated_id_above {A} (m : gmap Z A) k :
  is_Some (m !! k) → k < generated_id m.
Proof.
  unfold generated_id. revert k.
  apply (map_fold_weak_ind (λ r (m : gmap Z A), ∀ k, is_Some (m !! k) → k < r)).
  - intros k [? Hk]. by rewrite lookup_empty in Hk.
  - intros i x m' r Hi IH k Hk.
    destruct (decide (i = k)) as [->|Hne]; [lia|].
    rewrite lookup_insert_ne in Hk by done.
    specialize (IH k Hk). lia.
Qed.

Lemma generated_id_fresh {A} (m : gmap Z A) : m !! generated_id m = None.
Proof.
  destruct (m !! generated_id m) eqn:E; [|done].
  assert (generated_id m < generated_id m) by (apply generated_id_above; eauto).
  lia.
Qed.

(** ** Posting sums under insertion and deletion of rows *)

Section posting_sums.
Implicit Types (x k : Z) (txs : gmap Z Transaction.t) (t : Transaction.t).

Lemma posting_sum_empty x : posting_sum x ∅ = 0.
Proof. unfold posting_sum. by rewrite map_fold_empty. Qed.

Lemma posting_sum_insert x txs k t :
  txs !! k = None →
  posting_sum x (<[k:=t]> txs) = posting_sum x txs + contribution x t.
Proof.
  intros Hk. unfold posting_sum.
  rewrite map_fold_insert_L; [done| |done].
  intros; lia.
Qed.

Lemma posting_sum_delete x txs k t :
  txs !! k = Some t →
  posting_sum x (delete k txs) = posting_sum x txs - contribution x t.
Proof.
  intros Hk. unfold posting_sum.
  rewrite (map_fold_delete_L _ _ k t txs); [lia| |done].
  intros; lia.
Qed.

Lemma posting_sum_replace x txs k t t' :
  txs !! k = Some t →
  posting_sum x (<[k:=t']> txs)
  = posting_sum x txs - contribution x t + contribution x t'.
Proof.
  intros Hk. rewrite <- insert_delete_eq.
  rewrite posting_sum_insert by apply lookup_delete_eq.
  by rewrite (posting_sum_delete _ _ _ t).
Qed.
End posting_sums.

(** ** What the methods of the posting engine do to the ledger *)

Lemma contribution_delta x t :
  contribution x t
  = posting_delta (Transaction.debitAccountId t) (Transaction.creditAccountId t)
      (Transaction.amount t) x.
Proof. done. Qed.

Lemma add_balance_zero a : Account.add_balance 0 a = a.
Proof. destruct a. unfold Account.add_balance. simpl. f_equal. lia. Qed.

Lemma add_balance_add v w a :
  Account.add_balance v (Account.add_balance w a) = Account.add_balance (w + v) a.
Proof. destruct a. unfold Account.add_balance. simpl. f_equal. lia. Qed.

Section posting_engine.
Import TransactionService.

Lemma updateAccountBalances_run d c a l :
  updateAccountBalances d c a l
  = (Return tt,
     mkLedger (alter (Account.add_balance (- a)) c
                 (alter (Account.add_balance a) d (accounts l)))
       (transactions l) (categories l)).
Proof. done. Qed.

Lemma accounts_updateAccountBalances d c a l x :
  accounts (after (updateAccountBalances d c a) l) !! x
  = Account.add_balance (posting_delta d c a x) <$> accounts l !! x.
Proof.
  unfold after. rewrite updateAccountBalances_run. simpl.
  unfold posting_delta.
  destruct (decide (d = x)) as [->|Hd], (decide (c = x)) as [->|Hc];
    rewrite ?lookup_alter_eq, ?lookup_alter_ne by done;
    rewrite ?lookup_alter_eq, ?lookup_alter_ne by done;
    destruct (accounts l !! x) as [[]|]; simpl; try done;
    unfold Account.add_balance; simpl; do 2 f_equal; lia.
Qed.

Lemma createTransaction_run d l :
  createTransaction d l
  = match accounts l !! TransactionData.debitAccountId d,
          accounts l !! TransactionData.creditAccountId d with
    | Some _, Some _ =>
        (Return (generated_id (transactions l), new_transaction d),
         after (updateAccountBalances (TransactionData.debitAccountId d)
                  (TransactionData.creditAccountId d) (TransactionData.amount d))
           (mkLedger (accounts l)
              (<[generated_id (transactions l) := new_transaction d]> (transactions l))
              (categories l)))
    | _, _ => (Throw "One or both accounts not found", l)
    end.
Proof.
  unfold createTransaction. run.
  destruct (accounts l !! TransactionData.debitAccountId d);
    destruct (accounts l !! TransactionData.creditAccountId d); done.
Qed.

Lemma deleteTransaction_run id l :
  deleteTransaction id l
  = match transactions l !! id with
    | Some t =>
        (Return tt,
         with_transactions (delete id)
           (after (updateAccountBalances (Transaction.debitAccountId t)
                     (Transaction.creditAccountId t) (- Transaction.amount t)) l))
    | None => (Throw "Transaction not found", l)
    end.
Proof.
  unfold deleteTransaction. run. by destruct (transactions l !! id).
Qed.

(** The two balance updates change balances and no key, so the store
    accepts after them what it accepted before them. *)
Lemma accepts_after_posting d c a l old new :
  Store.accepts (after (updateAccountBalances d c a) l) old new = Store.accepts l old new.
Proof.
  assert (∀ x, bool_decide (is_Some (accounts (after (updateAccountBalances d c a) l) !! x))
               = bool_decide (is_Some (accounts l !! x))) as Hkeys.
  { intros x. apply bool_decide_ext.
    by rewrite accounts_updateAccountBalances, fmap_is_Some. }
  unfold Store.accepts, Store.reference_holds. by rewrite !Hkeys.
Qed.

(** The ledger in which [updateTransaction] calls [save]: the old posting
    has been reverted and the new one applied, if the patch has a balance
    field. *)
Lemma updateTransaction_run id u l :
  updateTransaction id u l
  = match transactions l !! id with
    | Some t =>
        let posted :=
          if touches_balance u then
            after (updateAccountBalances
                     (Transaction.debitAccountId (assign t u))
                     (Transaction.creditAccountId (assign t u))
                     (Transaction.amount (assign t u)))
              (after (updateAccountBalances (Transaction.debitAccountId t)
                        (Transaction.creditAccountId t) (- Transaction.amount t)) l)
          else l in
        if Store.accepts l t (assign t u)
        then (Return (assign t u), with_transactions <[id := assign t u]> posted)
        else (Throw Store.foreign_key_violation, posted)
    | None => (Throw "Transaction not found", l)
    end.
Proof.
  unfold updateTransaction. unfold bind at 1, get_ledger.
  destruct (transactions l !! id) as [t|]; [|done].
  cbn zeta. unfold bind at 1.
  destruct (touches_balance u).
  - rewrite <- (accepts_after_posting
                  (Transaction.debitAccountId t) (Transaction.creditAccountId t)
                  (- Transaction.amount t) l).
    rewrite <- (accepts_after_posting
                  (Transaction.debitAccountId (assign t u))
                  (Transaction.creditAccountId (assign t u))
                  (Transaction.amount (assign t u))).
    unfold after, save. run.
    by destruct (Store.accepts _ t (assign t u)).
  - unfold save. run. destruct l. by destruct (Store.accepts _ t (assign t u)).
Qed.

(** A row that keeps its two account ids is accepted. *)
Lemma accepts_same_accounts l old new :
  Transaction.debitAccountId new = Transaction.debitAccountId old →
  Transaction.creditAccountId new = Transaction.creditAccountId old →
  Store.accepts l old new = true.
Proof.
  intros Hd Hc. unfold Store.accepts, Store.reference_holds.
  by rewrite (bool_decide_eq_true_2 _ Hd), (bool_decide_eq_true_2 _ Hc).
Qed.

(** A row whose two account ids name accounts is accepted. *)
Lemma accepts_known_accounts l old new :
  is_Some (accounts l !! Transaction.debitAccountId new) →
  is_Some (accounts l !! Transaction.creditAccountId new) →
  Store.accepts l old new = true.
Proof.
  intros Hd Hc. unfold Store.accepts, Store.reference_holds.
  rewrite (bool_decide_eq_true_2 _ Hd), (bool_decide_eq_true_2 _ Hc).
  by rewrite !orb_true_r.
Qed.

(** What the store accepts names an account wherever the old row did. *)
Lemma accepts_keeps_references l old new :
  Store.accepts l old new = true →
  is_Some (accounts l !! Transaction.debitAccountId old) →
  is_Some (accounts l !! Transaction.creditAccountId old) →
  is_Some (accounts l !! Transaction.debitAccountId new)
  ∧ is_Some (accounts l !! Transaction.creditAccountId new).
Proof.
  unfold Store.accepts, Store.reference_holds. intros Hok Hd Hc.
  apply andb_true_iff in Hok as [Hdebit Hcredit].
  apply orb_true_iff in Hdebit, Hcredit. split.
  - destruct Hdebit as [Hsame|Hknown].
    + apply bool_decide_eq_true in Hsame. by rewrite Hsame.
    + by apply bool_decide_eq_true in Hknown.
  - destruct Hcredit as [Hsame|Hknown].
    + apply bool_decide_eq_true in Hsame. by rewrite Hsame.
    + by apply bool_decide_eq_true in Hknown.
Qed.

End posting_engine.

(** ** The balance invariant *)

Section invariant.
Import TransactionService.

Lemma transactions_updateAccountBalances d c a l :
  transactions (after (updateAccountBalances d c a) l) = transactions l.
Proof. done. Qed.

Lemma balanced_create d l :
  balanced l → balanced (after (createTransaction d) l).
Proof.
  intros Hb. unfold after at 1. rewrite createTransaction_run.
  destruct (accounts l !! TransactionData.debitAccountId d);
    destruct (accounts l !! TransactionData.creditAccountId d); simpl; try done.
  intros x a. rewrite accounts_updateAccountBalances. simpl.
  destruct (accounts l !! x) as [acc|] eqn:Hx; simpl; [|done].
  intros [= <-]. rewrite ?transactions_updateAccountBalances. simpl.
  rewrite posting_sum_insert by apply generated_id_fresh.
  rewrite <- (Hb x acc Hx), contribution_delta. done.
Qed.

Lemma balanced_delete id l :
  balanced l → balanced (after (deleteTransaction id) l).
Proof.
  intros Hb. unfold after at 1. rewrite deleteTransaction_run.
  destruct (transactions l !! id) as [t|] eqn:Ht; cbn [snd]; [|done].
  intros x a. unfold with_transactions. cbn [accounts transactions].
  rewrite accounts_updateAccountBalances, transactions_updateAccountBalances.
  destruct (accounts l !! x) as [acc|] eqn:Hx; simpl; [|done].
  intros [= <-]. rewrite (posting_sum_delete _ _ _ t Ht).
  rewrite <- (Hb x acc Hx), contribution_delta. simpl.
  unfold posting_delta. repeat case_decide; lia.
Qed.

(** [updateTransaction] keeps the invariant when [save] is accepted. *)
Lemma balanced_update id u l t :
  balanced l → transactions l !! id = Some t →
  Store.accepts l t (assign t u) = true →
  balanced (after (updateTransaction id u) l).
Proof.
  intros Hb Ht Hok. unfold after at 1. rewrite updateTransaction_run, Ht.
  cbn zeta. rewrite Hok. cbn [snd].
  intros x a. unfold with_transactions. cbn [accounts transactions].
  destruct (touches_balance u) eqn:Htouch.
  - rewrite !accounts_updateAccountBalances.
    destruct (accounts l !! x) as [acc|] eqn:Hx; simpl; [|done].
    intros [= <-]. rewrite ?transactions_updateAccountBalances.
    rewrite (posting_sum_replace _ _ _ t _ Ht).
    rewrite <- (Hb x acc Hx), !contribution_delta. simpl.
    unfold posting_delta. repeat case_decide; lia.
  - intros Hx. rewrite (posting_sum_replace _ _ _ t _ Ht).
    rewrite <- (Hb x a Hx).
    unfold touches_balance in Htouch.
    apply orb_false_elim in Htouch as [Htouch Hc].
    apply orb_false_elim in Htouch as [Ha Hd].
    apply bool_decide_eq_false in Ha, Hd, Hc.
    assert (contribution x (assign t u) = contribution x t) as ->; [|lia].
    unfold contribution, assign, nullish. simpl.
    destruct (Patch.amount u), (Patch.debitAccountId u), (Patch.creditAccountId u);
      try done; exfalso; eauto.
Qed.

End invariant.

Lemma demo_ledger_balanced : balanced demo_ledger.
Proof.
  intros x a Hx. unfold demo_ledger in *. cbn [accounts transactions] in *.
  rewrite posting_sum_insert, posting_sum_empty by apply lookup_empty.
  apply lookup_insert_Some in Hx as [[<- <-]|[? Hx]]; [done|].
  apply lookup_insert_Some in Hx as [[<- <-]|[? Hx]]; [done|].
  by rewrite lookup_empty in Hx.
Qed.

(** C1, evaluated on the code: an update that moves the debit side of the
    stored purchase to account 9, which does not exist.  Both balance
    updates run first: the old posting is reverted and the new one is
    applied, which finds no account 9 to add to.  Then [save] is refused.
    The call throws with the row unchanged and the balances moved: account
    2 is still debited 50.00 by the stored row, and its balance is 0.00.
    The invariant held before this one operation and does not hold after
    it. *)
Theorem update_to_unknown_account_breaks_invariant :
  balanced demo_ledger
  ∧ outcome (TransactionService.updateTransaction 1 debit_to_unknown_account) demo_ledger
    = Throw Store.foreign_key_violation
  ∧ transactions (perform (Update 1 debit_to_unknown_account) demo_ledger)
    = transactions demo_ledger
  ∧ Account.balance
      <$> accounts (perform (Update 1 debit_to_unknown_account) demo_ledger) !! 2
    = Some 0
  ∧ posting_sum 2 (transactions (perform (Update 1 debit_to_unknown_account) demo_ledger))
    = fixed2 50 0
  ∧ ¬ balanced (perform_all [Update 1 debit_to_unknown_account] demo_ledger).
Proof.
  split; [apply demo_ledger_balanced|].
  assert (TransactionService.updateTransaction 1 debit_to_unknown_account demo_ledger
          = (Throw Store.foreign_key_violation,
             mkLedger
               (<[1 := Account.mk "Checking" AccountType.ASSET_BANK None (fixed2 (-50) 0) true]>
                  (<[2 := Account.mk "Groceries" AccountType.EXPENSE None 0 true]> ∅))
               (transactions demo_ledger) ∅)) as Hrun.
  { rewrite updateTransaction_run. vm_compute. reflexivity. }
  assert (posting_sum 2 (transactions demo_ledger) = fixed2 50 0) as Hsum.
  { unfold demo_ledger. cbn [transactions].
    rewrite posting_sum_insert, posting_sum_empty by apply lookup_empty. done. }
  unfold perform_all, perform, outcome, after. cbn [fold_left]. rewrite Hrun.
  cbn [fst snd transactions accounts].
  split; [done|]. split; [done|]. split; [by vm_compute|]. split; [exact Hsum|].
  intros Hb.
  specialize (Hb 2 (Account.mk "Groceries" AccountType.EXPENSE None 0 true)).
  cbn [accounts transactions Account.balance] in Hb.
  rewrite Hsum in Hb. discriminate Hb. vm_compute. reflexivity.
Qed.

(** A run in which every write is accepted: the balances and rows after the
    first four operations of [demo_operations]. *)
Example demo_run_balances :
  (Account.balance <$> accounts (perform_all (take 4 demo_operations) demo_ledger) !! 1,
   Account.balance <$> accounts (perform_all (take 4 demo_operations) demo_ledger) !! 2,
   map_to_list (transactions (perform_all (take 4 demo_operations) demo_ledger)))
  = (Some 0, Some 0,
     [(1, Transaction.mk (LocalDay 2024 12 1) (fixed2 75 0) "Grocery Store" None
            TransactionStatus.PENDING None 1 1 None None None)]).
Proof. vm_compute. reflexivity. Qed.

(** ** create with the same account on both sides *)

Section same_account.
Import TransactionService.

(** [createTransaction] checks that both ids are known, and nothing else:
    with one known account on both sides it stores the row; the two balance
    updates then cancel on that account. *)
Lemma create_same_account_succeeds d l acc :
  TransactionData.debitAccountId d = TransactionData.creditAccountId d →
  accounts l !! TransactionData.debitAccountId d = Some acc →
  outcome (createTransaction d) l
    = Return (generated_id (transactions l), new_transaction d)
  ∧ transactions (after (createTransaction d) l)
    = <[generated_id (transactions l) := new_transaction d]> (transactions l)
  ∧ transactions l !! generated_id (transactions l) = None
  ∧ accounts (after (createTransaction d) l) = accounts l.
Proof.
  intros Hsame Hacc. unfold outcome, after. rewrite createTransaction_run.
  rewrite <- Hsame, Hacc. cbn [fst snd].
  rewrite transactions_updateAccountBalances. cbn [transactions].
  repeat split; [apply generated_id_fresh|].
  apply map_eq. intros x. rewrite accounts_updateAccountBalances.
  cbn [accounts]. unfold posting_delta.
  destruct (accounts l !! x) as [a|]; [simpl|done].
  case_decide; rewrite <- (add_balance_zero a) at 2; do 2 f_equal; lia.
Qed.

End same_account.

(** C2, evaluated on the code: [createTransaction] called with account 1 on
    both sides does not fail; it returns the saved row, the table of
    transactions has grown by that row, and the balances are as before. *)
Theorem create_same_account_inserts_row :
  outcome (TransactionService.createTransaction self_posting) demo_ledger
    = Return (2, TransactionService.new_transaction self_posting)
  ∧ transactions (after (TransactionService.createTransaction self_posting) demo_ledger)
    = <[2 := TransactionService.new_transaction self_posting]> (transactions demo_ledger)
  ∧ transactions demo_ledger !! 2 = None
  ∧ accounts (after (TransactionService.createTransaction self_posting) demo_ledger)
    = accounts demo_ledger.
Proof.
  assert (generated_id (transactions demo_ledger) = 2) as Hid by (vm_compute; reflexivity).
  rewrite <- Hid.
  eapply (create_same_account_succeeds self_posting demo_ledger); [done|].
  vm_compute. reflexivity.
Qed.

(** ** bulkUpdate *)

Section bulk_update.
Import TransactionService.


(** [bulkUpdateTransactions] writes to the table of transactions only, and
    writes nothing when it throws. *)
Lemma bulkUpdateTransactions_run ids u l :
  bulkUpdateTransactions ids u l
  = if bool_decide (ids = []) then (Throw Store.empty_criteria, l)
    else if bool_decide
              (map_Forall (λ k t, k ∈ ids → Store.accepts l t (assign t u) = true)
                 (transactions l))
    then (Return tt,
          with_transactions
            (map_imap (λ k t, Some (if bool_decide (k ∈ ids) then assign t u else t))) l)
    else (Throw Store.foreign_key_violation, l).
Proof.
  unfold bulkUpdateTransactions. case_bool_decide; [done|].
  unfold bind, get_ledger. by case_bool_decide.
Qed.



End bulk_update.




(** With an amount in the patch the stored balances stop matching the
    posting sums: the invariant of C1 does not survive [bulkUpdate]. *)
Example bulk_update_can_desynchronise :
  balanced demo_ledger
  ∧ ¬ balanced (after (TransactionService.bulkUpdateTransactions [1] amount_to_75)
                demo_ledger).
Proof.
  split; [apply demo_ledger_balanced|].
  intros Hb.
  specialize (Hb 2 (Account.mk "Groceries" AccountType.EXPENSE None (fixed2 50 0) true)).
  unfold after in Hb. rewrite bulkUpdateTransactions_run in Hb.
  vm_compute in Hb. specialize (Hb eq_refl). discriminate.
Qed.

(** ** delete followed by create *)

(** C7. For a stored transaction whose two accounts exist, deleting it and
    then calling create with its own date, amount, description, account ids,
    category, reference and notes both succeed, and afterwards every account
    row, hence the balance of the debit and of the credit account, is
    exactly what it was before the delete. *)
Theorem delete_then_create_restores_balances (l : Ledger) (id : Z) (t : Transaction.t) :
  transactions l !! id = Some t →
  is_Some (accounts l !! Transaction.debitAccountId t) →
  is_Some (accounts l !! Transaction.creditAccountId t) →
  let l1 := after (TransactionService.deleteTransaction id) l in
  let l2 := after (TransactionService.createTransaction (same_parameters t)) l1 in
  outcome (TransactionService.deleteTransaction id) l = Return tt
  ∧ outcome (TransactionService.createTransaction (same_parameters t)) l1
    = Return (generated_id (delete id (transactions l)),
              TransactionService.new_transaction (same_parameters t))
  ∧ accounts l2 = accounts l
  ∧ ∀ x, outcome (TransactionService.getAccountBalance x) l2
         = outcome (TransactionService.getAccountBalance x) l.
Proof.
  intros Ht [da Hd] [ca Hc] l1 l2.
  assert (Hl1 : l1 = with_transactions (delete id)
            (after (TransactionService.updateAccountBalances
                      (Transaction.debitAccountId t) (Transaction.creditAccountId t)
                      (- Transaction.amount t)) l)).
  { unfold l1, after at 1. by rewrite deleteTransaction_run, Ht. }
  assert (Hd1 : is_Some (accounts l1 !! Transaction.debitAccountId t)).
  { rewrite Hl1. unfold with_transactions. cbn [accounts].
    rewrite accounts_updateAccountBalances, Hd. by eexists. }
  assert (Hc1 : is_Some (accounts l1 !! Transaction.creditAccountId t)).
  { rewrite Hl1. unfold with_transactions. cbn [accounts].
    rewrite accounts_updateAccountBalances, Hc. by eexists. }
  destruct Hd1 as [da1 Hd1], Hc1 as [ca1 Hc1].
  assert (Hrun : TransactionService.createTransaction (same_parameters t) l1
            = (Return (generated_id (transactions l1),
                       TransactionService.new_transaction (same_parameters t)),
               after (TransactionService.updateAccountBalances
                        (Transaction.debitAccountId t) (Transaction.creditAccountId t)
                        (Transaction.amount t))
                 (mkLedger (accounts l1)
                    (<[generated_id (transactions l1)
                       := TransactionService.new_transaction (same_parameters t)]>
                       (transactions l1))
                    (categories l1)))).
  { rewrite createTransaction_run. cbn [same_parameters TransactionData.debitAccountId
      TransactionData.creditAccountId TransactionData.amount].
    by rewrite Hd1, Hc1. }
  assert (Hacc : accounts l2 = accounts l).
  { unfold l2, after at 1. rewrite Hrun. cbn [snd].
    apply map_eq. intros x. rewrite accounts_updateAccountBalances. cbn [accounts].
    rewrite Hl1. unfold with_transactions. cbn [accounts].
    rewrite accounts_updateAccountBalances.
    destruct (accounts l !! x) as [a|]; [simpl|done].
    rewrite add_balance_add. rewrite <- (add_balance_zero a) at 2.
    do 2 f_equal. unfold posting_delta. repeat case_decide; lia. }
  split; [|split; [|split]].
  - unfold outcome. by rewrite deleteTransaction_run, Ht.
  - unfold outcome. rewrite Hrun. cbn [fst]. by rewrite Hl1.
  - exact Hacc.
  - intros x. unfold outcome, TransactionService.getAccountBalance. run.
    by rewrite Hacc.
Qed.

Lemma delete_then_create_restores_balances_witness :
  transactions demo_ledger !! 1 = Some demo_purchase
  ∧ accounts (after (TransactionService.createTransaction (same_parameters demo_purchase))
                (after (TransactionService.deleteTransaction 1) demo_ledger))
    = accounts demo_ledger.
Proof.
  split; [vm_compute; reflexivity|].
  apply (delete_then_create_restores_balances demo_ledger 1 demo_purchase).
  - vm_compute. reflexivity.
  - vm_compute. eexists. reflexivity.
  - vm_compute. eexists. reflexivity.
Defined.

(** ** update of fields that carry no posting *)

(** C8. For every stored transaction, an update whose patch has no amount, no
    debit account id and no credit account id (so it can only change
    description, status, notes, reference, category and the like) returns
    the patched row and leaves every account row, in particular the
    balances of the debit and of the credit account, unchanged.  A patch
    that changes only the description is such a patch. *)
Theorem update_without_balance_fields_keeps_balances
    (l : Ledger) (id : Z) (t : Transaction.t) (updates : Patch.t) :
  transactions l !! id = Some t →
  Patch.amount updates = None →
  Patch.debitAccountId updates = None →
  Patch.creditAccountId updates = None →
  outcome (TransactionService.updateTransaction id updates) l
    = Return (TransactionService.assign t updates)
  ∧ transactions (after (TransactionService.updateTransaction id updates) l)
    = <[id := TransactionService.assign t updates]> (transactions l)
  ∧ accounts (after (TransactionService.updateTransaction id updates) l) = accounts l.
Proof.
  intros Ht Ha Hd Hc. unfold outcome, after. rewrite updateTransaction_run, Ht.
  cbn zeta. rewrite accepts_same_accounts.
  - unfold TransactionService.touches_balance. rewrite Ha, Hd, Hc. done.
  - unfold TransactionService.assign. by rewrite Hd.
  - unfold TransactionService.assign. by rewrite Hc.
Qed.

Lemma update_without_balance_fields_keeps_balances_witness :
  accounts (after (TransactionService.updateTransaction 1 (description_only "Farmers market"))
              demo_ledger)
  = accounts demo_ledger
  ∧ Transaction.description
      <$> transactions
            (after (TransactionService.updateTransaction 1 (description_only "Farmers market"))
               demo_ledger) !! 1
    = Some "Farmers market".
Proof.
  destruct (update_without_balance_fields_keeps_balances demo_ledger 1 demo_purchase
              (description_only "Farmers market")) as (_ & Htx & Hacc).
  - vm_compute. reflexivity.
  - reflexivity.
  - reflexivity.
  - reflexivity.
  - split; [exact Hacc|]. rewrite Htx. vm_compute. reflexivity.
Defined.

(** ** getAccountBalance *)

Section account_balance.
Import TransactionService.

Lemma append_not_empty (a b : string) : b ≠ "" → a +:+ b ≠ "".
Proof.
  intros Hb Hempty. destruct a as [|c a]; [by apply Hb|].
  change (String c (a +:+ b) = "") in Hempty. discriminate.
Qed.

(** The text of a decimal column is never empty: it has the point. *)
Lemma decimal_text_not_empty hundredths : decimal_text hundredths ≠ "".
Proof.
  unfold decimal_text. do 2 apply append_not_empty.
  intros Hempty. change (String "." (((if Z.abs hundredths mod 100 <? 10 then "0" else "")
    +:+ pretty (Z.abs hundredths mod 100))) = "") in Hempty. discriminate.
Qed.

(** For an existing account the fallback [|| 0] never applies. *)
Lemma getAccountBalance_of_account accountId account l :
  accounts l !! accountId = Some account →
  getAccountBalance accountId l = (Return (Text (decimal_text (Account.balance account))), l).
Proof.
  intros Hstored. unfold getAccountBalance, bind, get_ledger, ret, or_zero.
  rewrite Hstored. simpl.
  by rewrite bool_decide_eq_false_2 by apply decimal_text_not_empty.
Qed.

Lemma getAccountBalance_of_missing accountId l :
  accounts l !! accountId = None →
  getAccountBalance accountId l = (Return (Number 0), l).
Proof.
  intros Hmissing. unfold getAccountBalance, bind, get_ledger, ret, or_zero.
  by rewrite Hmissing.
Qed.

End account_balance.

(** C10, evaluated on the code: for the id 7, which matches no account,
    [getAccountBalance] returns the number 0 and does not throw; for
    account 3, which exists with the stored balance 0.00, it returns the
    text of the column, which is not empty and so is not replaced by 0.
    The caller can tell the two apart. *)
Theorem balance_of_empty_account_is_text :
  accounts three_account_ledger !! 7 = None
  ∧ Account.balance <$> accounts three_account_ledger !! 3 = Some 0
  ∧ TransactionService.getAccountBalance 7 three_account_ledger
    = (Return (TransactionService.Number 0), three_account_ledger)
  ∧ TransactionService.getAccountBalance 3 three_account_ledger
    = (Return (TransactionService.Text "0.00"), three_account_ledger).
Proof.
  split; [by vm_compute|]. split; [by vm_compute|]. split.
  - apply getAccountBalance_of_missing. by vm_compute.
  - by rewrite (getAccountBalance_of_account 3
                  (Account.mk "Dining" AccountType.EXPENSE None 0 true)).
Qed.

(** ** parseDate on an ISO date *)

(** The second format is not anchored: inside ["2024-03-05"] it finds
    ["24-03-05"], so the loop never tries the third format on this input. *)
Example second_format_matches_inside_iso_date :
  Js.regex_match
    [Js.DigitGroup 1 2; Js.Literal "/"; Js.DigitGroup 1 2; Js.Literal "/"; Js.DigitGroup 2 4]
    "2024-03-05" = None
  ∧ Js.regex_match
      [Js.DigitGroup 1 2; Js.Literal "-"; Js.DigitGroup 1 2; Js.Literal "-"; Js.DigitGroup 2 4]
      "2024-03-05" = Some ["24"; "03"; "05"].
Proof. split; vm_compute; reflexivity. Qed.

(** C3, evaluated on the code: for ["2024-03-05"] the groups are read as
    month 24, day 3, year 05, the year becomes 2005, no swap takes place, and
    [new Date(2005, 23, 3)] is 3 December 2006; it is not a date of the year
    2024 with month 5 and day 3. *)
Theorem parseDate_iso_date_is_misread :
  ImportService.parseDate "2024-03-05" = Js.new_Date 2005 23 3
  ∧ ImportService.parseDate "2024-03-05" = LocalDay 2006 12 3
  ∧ ImportService.parseDate "2024-03-05" ≠ LocalDay 2024 5 3.
Proof. repeat split; [vm_compute; reflexivity..|vm_compute; discriminate]. Qed.

(** Where the third format is reached (a one-digit day keeps the second
    format from matching), its first group, the year, is read as the month,
    and the swap moves it to the day: the result is not in 2024 either. *)
Example third_format_reads_year_as_day :
  ImportService.parseDate "2024-3-5" = Js.new_Date 2005 2 2024
  ∧ ImportService.parseDate "2024-3-5" = LocalDay 2010 9 14.
Proof. split; vm_compute; reflexivity. Qed.

(** The first two formats behave as their comments say. *)
Example parseDate_us_dates :
  ImportService.parseDate "12/1/2024" = LocalDay 2024 12 1
  ∧ ImportService.parseDate "3-5-24" = LocalDay 2024 3 5
  ∧ ImportService.parseDate "3/5/99" = LocalDay 1999 3 5.
Proof. repeat split; vm_compute; reflexivity. Qed.

(** ** parseQif *)

(** C9. [parseQif] on the entry [D12/1/2024], [T-50.00], [PGrocery Store],
    [LFood], [CX], closed by a line [^], yields exactly one record: date
    "12/1/2024", amount -50.00, description "Grocery Store", category
    "Food", cleared "X" (and no reference). *)
Theorem parseQif_grocery_entry :
  FileParser.parseQif qif_grocery_entry
  = [ FileParser.mkQif "12/1/2024" (Js.Finite (-50)) (Some "Grocery Store")
        (Some "Food") (Some "X") None ].
Proof. vm_compute. reflexivity. Qed.

(** ** Find-or-create *)

Section find_or_create.

Lemma findOne_Some {A} (P : A → Prop) `{∀ a, Decision (P a)} (table : gmap Z A) k a :
  ImportService.findOne P table = Some (k, a) → table !! k = Some a ∧ P a.
Proof.
  unfold ImportService.findOne. intros Hhead. apply head_Some_elem_of in Hhead.
  apply list_elem_of_filter in Hhead as [HP Hin].
  by apply elem_of_map_to_list in Hin.
Qed.

Lemma findOne_None {A} (P : A → Prop) `{∀ a, Decision (P a)} (table : gmap Z A) :
  ImportService.findOne P table = None ↔ ∀ k a, table !! k = Some a → ¬ P a.
Proof.
  unfold ImportService.findOne. rewrite head_None. split.
  - intros Hnil k a Hk HP.
    assert ((k, a) ∈ filter (λ row : Z * A, P row.2) (map_to_list table)) as Hin.
    { apply list_elem_of_filter. split; [done|]. by apply elem_of_map_to_list. }
    rewrite Hnil in Hin. by apply not_elem_of_nil in Hin.
  - intros Hnone. destruct (filter _ _) as [|[k a] rest] eqn:E; [done|].
    assert ((k, a) ∈ filter (λ row : Z * A, P row.2) (map_to_list table)) as Hin.
    { rewrite E. left. }
    apply list_elem_of_filter in Hin as [HP Hin].
    apply elem_of_map_to_list in Hin. by destruct (Hnone k a Hin).
Qed.

(** Creating the account: it is stored, with balance 0, under a key that no
    account had. *)
Lemma getOrCreateAccount_absent accountName type description l :
  (∀ k a, accounts l !! k = Some a →
     ¬ (Account.name a = accountName ∧ Account.type a = type)) →
  ImportService.getOrCreateAccount accountName type description l
  = (Return (generated_id (accounts l)),
     with_accounts
       <[generated_id (accounts l)
         := Account.mk accountName type (Some description) 0 true]> l).
Proof.
  intros Habsent. unfold ImportService.getOrCreateAccount, ImportService.save_account. run.
  apply (findOne_None (λ a, Account.name a = accountName ∧ Account.type a = type))
    in Habsent.
  by rewrite Habsent.
Qed.

(** Finding it: the ledger is not written to. *)
Lemma getOrCreateAccount_present accountName type description l k a :
  ImportService.findOne (λ a, Account.name a = accountName ∧ Account.type a = type) (accounts l)
    = Some (k, a) →
  ImportService.getOrCreateAccount accountName type description l = (Return k, l).
Proof. intros Hfound. unfold ImportService.getOrCreateAccount. run. by rewrite Hfound. Qed.

(** [getOrCreateCategory] returns, and writes to the categories only. *)
Lemma getOrCreateCategory_run categoryName type l :
  ∃ id cats,
    ImportService.getOrCreateCategory categoryName type l
    = (Return id, mkLedger (accounts l) (transactions l) cats).
Proof.
  unfold ImportService.getOrCreateCategory, ImportService.save_category. run.
  destruct (ImportService.findOne _ (categories l)) as [[id c]|].
  - exists id, (categories l). by destruct l.
  - eexists _, _. reflexivity.
Qed.

End find_or_create.

(** ** The import loop *)

Lemma posted_count_posted row u outcomes :
  posted_count ((row, Return u) :: outcomes) = 1 + posted_count outcomes.
Proof.
  unfold posted_count. rewrite filter_cons_True by done. cbn [length]. lia.
Qed.

Lemma posted_count_failed row message outcomes :
  posted_count ((row, Throw message) :: outcomes) = posted_count outcomes.
Proof.
  unfold posted_count. by rewrite filter_cons_False by (simpl; auto).
Qed.

(** Every outcome is counted once, as a success or as an error. *)
Lemma posted_or_failed outcomes :
  posted_count outcomes + Z.of_nat (length (failure_messages outcomes))
  = Z.of_nat (length outcomes).
Proof.
  induction outcomes as [|[row [u|message]] rest IH].
  - done.
  - rewrite posted_count_posted. simpl in *. lia.
  - rewrite posted_count_failed. simpl in *. lia.
Qed.

Section import_loop.
Context (accountId : Z) (defaultCreditAccountId defaultDebitAccountId : option Z)
  (importBatch : string).

(** The loop returns for every list of candidates: its counter has grown by
    the number of candidates that were posted, its list of errors by the
    messages of those that were not, and the ledger is the one the
    candidates leave behind one after the other. *)
Lemma import_rows_run rows successCount errors l :
  ImportService.import_rows accountId defaultCreditAccountId defaultDebitAccountId
    importBatch rows successCount errors l
  = (Return
       (successCount
          + posted_count (row_outcomes accountId defaultCreditAccountId
                            defaultDebitAccountId importBatch rows l),
        errors
          ++ failure_messages (row_outcomes accountId defaultCreditAccountId
                                 defaultDebitAccountId importBatch rows l)),
     ledger_after_rows accountId defaultCreditAccountId defaultDebitAccountId
       importBatch rows l).
Proof.
  revert successCount errors l.
  induction rows as [|row rest IH]; intros successCount errors l.
  - simpl. unfold ret, posted_count, failure_messages. simpl.
    by rewrite Z.add_0_r, app_nil_r.
  - cbn [ImportService.import_rows row_outcomes ledger_after_rows].
    unfold bind at 1, try_catch, bind at 1, after.
    destruct (ImportService.post_row accountId defaultCreditAccountId
                defaultDebitAccountId importBatch row l) as [[u|message] l'];
      unfold ret; cbn [fst snd]; rewrite IH.
    + rewrite posted_count_posted. do 2 f_equal. f_equal. lia.
    + rewrite posted_count_failed. do 2 f_equal.
      unfold failure_messages. cbn [omap list_omap snd fst].
      by rewrite <- app_assoc.
Qed.

Lemma outcomes_length rows l :
  length (row_outcomes accountId defaultCreditAccountId defaultDebitAccountId
            importBatch rows l) = length rows.
Proof.
  revert l. induction rows as [|row rest IH]; intros l; [done|].
  simpl. by rewrite IH.
Qed.

End import_loop.

Lemma row_outcomes_app accountId dc dd importBatch before rest l :
  row_outcomes accountId dc dd importBatch (before ++ rest) l
  = row_outcomes accountId dc dd importBatch before l
    ++ row_outcomes accountId dc dd importBatch rest
         (ledger_after_rows accountId dc dd importBatch before l).
Proof.
  revert l. induction before as [|row before IH]; intros l; [done|].
  simpl. by rewrite IH.
Qed.

(** C5. When the target account exists, [importTransactions] returns for
    every preview: each candidate is posted in turn on the ledger its
    predecessors left behind; [success] is the number of candidates whose
    posting returned and [errors] holds, in order, one message
    [Row <originalIndex + 1>: <message>] per candidate whose posting threw,
    so every candidate is accounted for by one or the other.  In particular
    a candidate that throws adds its message and the candidates after it are
    posted as usual, starting from the ledger the failed candidate left. *)
Theorem import_continues_after_row_failure
    (preview : ImportService.ImportPreview) (accountId : Z)
    (defaultCreditAccountId defaultDebitAccountId : option Z) (now : Z) (l : Ledger) :
  is_Some (accounts l !! accountId) →
  let importBatch := "import_" +:+ pretty now in
  let post := ImportService.post_row accountId defaultCreditAccountId
                defaultDebitAccountId importBatch in
  let outcomes_from := row_outcomes accountId defaultCreditAccountId
                         defaultDebitAccountId importBatch in
  let ledger_after := ledger_after_rows accountId defaultCreditAccountId
                        defaultDebitAccountId importBatch in
  let outcomes := outcomes_from (ImportService.transactions preview) l in
  ImportService.importTransactions preview accountId defaultCreditAccountId
    defaultDebitAccountId now l
  = (Return (ImportService.mkResult (posted_count outcomes) (failure_messages outcomes)),
     ledger_after (ImportService.transactions preview) l)
  ∧ posted_count outcomes + Z.of_nat (length (failure_messages outcomes))
    = Z.of_nat (length (ImportService.transactions preview))
  ∧ ∀ before row rest message,
      ImportService.transactions preview = before ++ row :: rest →
      outcome (post row) (ledger_after before l) = Throw message →
      ImportService.row_error row message ∈ failure_messages outcomes
      ∧ outcomes
        = outcomes_from before l
          ++ (row, Throw message)
          :: outcomes_from rest (after (post row) (ledger_after before l)).
Proof.
  intros [target Htarget] importBatch post outcomes_from ledger_after outcomes.
  split; [|split].
  - unfold ImportService.importTransactions. unfold bind at 1, get_ledger.
    rewrite Htarget. unfold bind. rewrite import_rows_run. done.
  - rewrite posted_or_failed. unfold outcomes, outcomes_from.
    by rewrite outcomes_length.
  - intros before row rest message Hrows Hthrow.
    assert (outcomes
            = outcomes_from before l
              ++ (row, Throw message)
              :: outcomes_from rest (after (post row) (ledger_after before l))) as Hsplit.
    { unfold outcomes, outcomes_from. rewrite Hrows, row_outcomes_app.
      cbn [row_outcomes]. unfold outcome in Hthrow. fold post.
      fold (ledger_after before l). by rewrite Hthrow. }
    split; [|done]. rewrite Hsplit. unfold failure_messages.
    rewrite omap_app. apply elem_of_app. right. cbn [omap list_omap snd fst]. left.
Qed.

Lemma import_continues_after_row_failure_witness :
  is_Some (accounts demo_ledger !! 1)
  ∧ outcome (ImportService.importTransactions demo_preview 1 None (Some 99) 1733011200000)
      demo_ledger
    = Return (ImportService.mkResult 1
                [ "Row 1: One or both accounts not found";
                  "Row 3: One or both accounts not found" ]).
Proof.
  assert (is_Some (accounts demo_ledger !! 1)) as Htarget
    by (vm_compute; eexists; reflexivity).
  split; [exact Htarget|].
  destruct (import_continues_after_row_failure demo_preview 1 None (Some 99)
              1733011200000 demo_ledger Htarget) as (Hrun & _).
  unfold outcome. rewrite Hrun. vm_compute. reflexivity.
Defined.

(** ** One income candidate *)

Section single_income_candidate.
Context (T : Z) (target : Account.t) (l : Ledger).
Context (index : Z) (date : JsDate) (description : string) (reference : option string).

Hypothesis target_exists : accounts l !! T = Some target.
Hypothesis no_salary_account :
  ∀ k a, accounts l !! k = Some a →
    ¬ (Account.name a = "Income - Salary" ∧ Account.type a = AccountType.INCOME).

Lemma income_key_is_new :
  accounts l !! generated_id (accounts l) = None ∧ generated_id (accounts l) ≠ T.
Proof.
  assert (accounts l !! generated_id (accounts l) = None) as Hnew
    by apply generated_id_fresh.
  split; [done|]. intros Heq. rewrite Heq in Hnew. by rewrite target_exists in Hnew.
Qed.

(** Posting the candidate: the income account is created, the category is
    found or created, and the transaction is posted from the new account to
    the target. *)
Lemma post_salary_row importBatch :
  ∃ categoryId cats,
    ImportService.post_row T None None importBatch
      (salary_candidate index date description reference) l
    = (Return tt,
       mkLedger
         (<[T := Account.add_balance (fixed2 100 0) target]>
            (<[generated_id (accounts l) := salary_income_account (- fixed2 100 0)]>
               (accounts l)))
         (<[generated_id (transactions l)
            := Transaction.mk date (fixed2 100 0) description reference
                 TransactionStatus.PENDING (Some ("Imported from " +:+ importBatch))
                 T (generated_id (accounts l)) (Some categoryId) None None]>
            (transactions l))
         cats).
Proof.
  destruct income_key_is_new as [Hnew Hne].
  set (income := generated_id (accounts l)) in *.
  pose (l1 := with_accounts <[income := salary_income_account 0]> l).
  destruct (getOrCreateCategory_run "Salary" CategoryType.INCOME l1)
    as (categoryId & cats & Hcategory).
  exists categoryId, cats.
  unfold ImportService.post_row, salary_candidate.
  cbn [ImportService.isDebit ImportService.category ImportService.date
       ImportService.amount ImportService.description ImportService.reference
       Js.truthy_string].
  unfold ImportService.or_else, Js.truthy_number,
    ImportService.getOrCreateIncomeAccount.
  unfold bind at 1. unfold bind at 1.
  rewrite (getOrCreateAccount_absent _ _ _ l) by exact no_salary_account.
  fold income. unfold ret at 1.
  change (with_accounts _ l) with l1.
  unfold bind at 1. unfold bind at 1. rewrite Hcategory. unfold ret at 1.
  unfold bind at 1. rewrite createTransaction_run.
  cbn [TransactionData.debitAccountId TransactionData.creditAccountId
       TransactionData.amount accounts transactions categories fst snd].
  assert (accounts l1 !! T = Some target) as ->.
  { unfold l1, with_accounts. cbn [accounts]. by rewrite lookup_insert_ne. }
  assert (accounts l1 !! income = Some (salary_income_account 0)) as ->.
  { unfold l1, with_accounts. cbn [accounts]. by rewrite lookup_insert_eq. }
  unfold ret, after. rewrite updateAccountBalances_run.
  cbn [fst snd accounts transactions categories]. f_equal. f_equal.
  apply map_eq. intros k. unfold l1, with_accounts. cbn [accounts].
  destruct (decide (k = T)) as [->|HkT].
  - rewrite lookup_insert_eq, lookup_alter_ne, lookup_alter_eq by done.
    by rewrite lookup_insert_ne, target_exists.
  - rewrite (lookup_insert_ne _ T k) by done.
    destruct (decide (k = income)) as [->|Hki].
    + rewrite lookup_alter_eq, lookup_alter_ne, !lookup_insert_eq by done. done.
    + rewrite !lookup_alter_ne, !lookup_insert_ne by done. done.
Qed.

End single_income_candidate.

(** C6. Importing a preview that holds exactly one income candidate (amount
    100.00, [isDebit] false, category "Salary") for an existing target
    account [T], with no default accounts, into a ledger without an income
    account named "Income - Salary": the run reports one success and no
    error; an income account "Income - Salary" is created under a key
    that was unused; exactly one transaction is added, with debit account
    [T], the new account as credit account and amount 100.00; the balance
    of [T] has grown by 100.00 and the balance of the new account has gone
    from 0 to -100.00; no other account has changed. *)
Theorem import_single_income_candidate
    (T : Z) (target : Account.t) (l : Ledger) (index now : Z) (date : JsDate)
    (description : string) (reference : option string)
    (mapping : ImportService.ImportMapping) :
  accounts l !! T = Some target →
  (∀ k a, accounts l !! k = Some a →
     ¬ (Account.name a = "Income - Salary" ∧ Account.type a = AccountType.INCOME)) →
  let run := ImportService.importTransactions
               (salary_preview index date description reference mapping)
               T None None now in
  let income := generated_id (accounts l) in
  let id := generated_id (transactions l) in
  outcome run l = Return (ImportService.mkResult 1 [])
  ∧ accounts l !! income = None
  ∧ transactions l !! id = None
  ∧ (∃ categoryId,
       transactions (after run l)
       = <[id := Transaction.mk date (fixed2 100 0) description reference
                   TransactionStatus.PENDING
                   (Some ("Imported from import_" +:+ pretty now))
                   T income (Some categoryId) None None]> (transactions l))
  ∧ accounts (after run l)
    = <[T := Account.add_balance (fixed2 100 0) target]>
        (<[income := salary_income_account (- fixed2 100 0)]> (accounts l))
  ∧ Account.balance <$> accounts (after run l) !! T
    = Some (Account.balance target + fixed2 100 0)
  ∧ Account.balance <$> accounts (after run l) !! income = Some (0 - fixed2 100 0).
Proof.
  intros Htarget Habsent run income id.
  destruct (income_key_is_new T target l Htarget) as [Hnew Hne].
  destruct (post_salary_row T target l index date description reference
              Htarget Habsent ("import_" +:+ pretty now))
    as (categoryId & cats & Hpost).
  assert (run l
          = (Return (ImportService.mkResult 1 []),
             mkLedger
               (<[T := Account.add_balance (fixed2 100 0) target]>
                  (<[income := salary_income_account (- fixed2 100 0)]> (accounts l)))
               (<[id := Transaction.mk date (fixed2 100 0) description reference
                          TransactionStatus.PENDING
                          (Some ("Imported from import_" +:+ pretty now))
                          T income (Some categoryId) None None]> (transactions l))
               cats)) as Hrun.
  { unfold run, ImportService.importTransactions. unfold bind at 1, get_ledger.
    rewrite Htarget. unfold bind. rewrite import_rows_run.
    unfold salary_preview.
    cbn [ImportService.transactions row_outcomes ledger_after_rows].
    unfold after. rewrite Hpost. done. }
  unfold outcome, after. rewrite Hrun. cbn [fst snd accounts transactions].
  split; [done|]. split; [exact Hnew|]. split; [apply generated_id_fresh|].
  split; [by exists categoryId|]. split; [done|]. split.
  - by rewrite lookup_insert_eq.
  - rewrite lookup_insert_ne by done. by rewrite lookup_insert_eq.
Qed.

Lemma demo_ledger_has_no_salary_account k a :
  accounts demo_ledger !! k = Some a →
  ¬ (Account.name a = "Income - Salary" ∧ Account.type a = AccountType.INCOME).
Proof.
  unfold demo_ledger. cbn [accounts]. intros Hk [Hname _].
  apply lookup_insert_Some in Hk as [[_ <-]|[_ Hk]]; [discriminate|].
  apply lookup_insert_Some in Hk as [[_ <-]|[_ Hk]]; [discriminate|].
  by rewrite lookup_empty in Hk.
Qed.

Lemma import_single_income_candidate_witness :
  outcome (ImportService.importTransactions
             (salary_preview 0 (LocalDay 2024 12 2) "Payroll Deposit" None demo_mapping)
             1 None None 1733011200000) demo_ledger
    = Return (ImportService.mkResult 1 [])
  ∧ Account.balance
      <$> accounts (after (ImportService.importTransactions
                             (salary_preview 0 (LocalDay 2024 12 2) "Payroll Deposit" None
                                demo_mapping)
                             1 None None 1733011200000) demo_ledger) !! 1
    = Some (fixed2 50 0).
Proof.
  destruct (import_single_income_candidate 1
              (Account.mk "Checking" AccountType.ASSET_BANK None (fixed2 (-50) 0) true)
              demo_ledger 0 1733011200000 (LocalDay 2024 12 2) "Payroll Deposit" None
              demo_mapping)
    as (Hout & _ & _ & _ & _ & HT & _).
  - vm_compute. reflexivity.
  - exact demo_ledger_has_no_salary_account.
  - split; [exact Hout|]. rewrite HT. vm_compute. reflexivity.
Defined.

(** The import run reaches [createTransaction] with one account on both
    sides: with the target account given as default credit account, the
    income candidate is stored as a transaction from account 1 to account 1. *)
Example import_posts_to_same_account :
  let run := ImportService.importTransactions
               (salary_preview 0 (LocalDay 2024 12 2) "Payroll Deposit" None demo_mapping)
               1 (Some 1) None 1733011200000 in
  outcome run demo_ledger = Return (ImportService.mkResult 1 [])
  ∧ (λ t, (Transaction.debitAccountId t, Transaction.creditAccountId t))
      <$> transactions (after run demo_ledger) !! 2
    = Some (1, 1).
Proof. split; vm_compute; reflexivity. Qed.

(** * Further properties of the posting engine *)

Section posting_engine_effects.
Import TransactionService.


(** Every update changes the balance of each account by the difference
    between what the patched row and the stored row contribute to it,
    whether [save] stores the patched row afterwards or not. *)
Lemma accounts_updateTransaction id u l t x :
  transactions l !! id = Some t →
  accounts (after (updateTransaction id u) l) !! x
  = Account.add_balance (contribution x (assign t u) - contribution x t)
      <$> accounts l !! x.
Proof.
  intros Ht. unfold after at 1. rewrite updateTransaction_run, Ht. cbn zeta.
  match goal with
  | |- accounts (snd (if ?accepted then _ else _)) !! _ = _ =>
      replace (accounts (snd (if accepted then _ else _)))
        with (accounts
                (if touches_balance u then
                   after (updateAccountBalances
                            (Transaction.debitAccountId (assign t u))
                            (Transaction.creditAccountId (assign t u))
                            (Transaction.amount (assign t u)))
                     (after (updateAccountBalances (Transaction.debitAccountId t)
                               (Transaction.creditAccountId t) (- Transaction.amount t)) l)
                 else l))
        by (by destruct accepted)
  end.
  destruct (touches_balance u) eqn:Htouch.
  - rewrite !accounts_updateAccountBalances.
    destruct (accounts l !! x) as [acc|]; [simpl|done].
    rewrite add_balance_add, !contribution_delta. cbn [Z.opp].
    do 2 f_equal. unfold posting_delta. simpl. repeat case_decide; lia.
  - unfold touches_balance in Htouch.
    apply orb_false_elim in Htouch as [Htouch Hc].
    apply orb_false_elim in Htouch as [Ha Hd].
    apply bool_decide_eq_false in Ha, Hd, Hc.
    assert (contribution x (assign t u) = contribution x t) as ->.
    { unfold contribution, assign, nullish. simpl.
      destruct (Patch.amount u), (Patch.debitAccountId u), (Patch.creditAccountId u);
        try done; exfalso; eauto. }
    rewrite Z.sub_diag. destruct (accounts l !! x) as [acc|]; [simpl|done].
    by rewrite add_balance_zero.
Qed.

End posting_engine_effects.

(** X1. [createTransaction] with a debit or credit id that matches no account
    throws "One or both accounts not found" and writes nothing. *)
Theorem create_with_unknown_account_throws (d : TransactionData.t) (l : Ledger) :
  accounts l !! TransactionData.debitAccountId d = None
  ∨ accounts l !! TransactionData.creditAccountId d = None →
  TransactionService.createTransaction d l = (Throw "One or both accounts not found", l).
Proof.
  intros Hmissing. rewrite createTransaction_run.
  destruct (accounts l !! TransactionData.debitAccountId d),
           (accounts l !! TransactionData.creditAccountId d);
    try done; by destruct Hmissing.
Qed.

Lemma create_with_unknown_account_throws_witness :
  TransactionService.createTransaction
    (TransactionData.mk (LocalDay 2024 12 3) (fixed2 1 0) "Nowhere" 9 1 None None None)
    demo_ledger
  = (Throw "One or both accounts not found", demo_ledger).
Proof.
  apply create_with_unknown_account_throws. left. vm_compute. reflexivity.
Defined.

(** X2. [updateTransaction] and [deleteTransaction] with an id that matches
    no stored transaction throw "Transaction not found" and write nothing,
    whatever the patch. *)
Theorem unknown_transaction_is_rejected (id : Z) (updates : Patch.t) (l : Ledger) :
  transactions l !! id = None →
  TransactionService.updateTransaction id updates l = (Throw "Transaction not found", l)
  ∧ TransactionService.deleteTransaction id l = (Throw "Transaction not found", l).
Proof.
  intros Hmissing. by rewrite updateTransaction_run, deleteTransaction_run, Hmissing.
Qed.

Lemma unknown_transaction_is_rejected_witness :
  TransactionService.updateTransaction 5 (description_only "x") demo_ledger
    = (Throw "Transaction not found", demo_ledger)
  ∧ TransactionService.deleteTransaction 5 demo_ledger
    = (Throw "Transaction not found", demo_ledger).
Proof.
  apply unknown_transaction_is_rejected. vm_compute. reflexivity.
Defined.



(** X4. Updating only the amount of a stored transaction from A to B, its two
    accounts being different and existing, changes the balance of the
    debit account by B - A and that of the credit account by -(B - A),
    and stores B in the row. *)
Theorem update_amount_shifts_balances
    (id : Z) (t : Transaction.t) (newAmount : Z) (l : Ledger) (da ca : Account.t) :
  transactions l !! id = Some t →
  Transaction.debitAccountId t ≠ Transaction.creditAccountId t →
  accounts l !! Transaction.debitAccountId t = Some da →
  accounts l !! Transaction.creditAccountId t = Some ca →
  let updates := Patch.mk None (Some newAmount) None None None None None None None None None in
  let l' := after (TransactionService.updateTransaction id updates) l in
  accounts l' !! Transaction.debitAccountId t
    = Some (Account.add_balance (newAmount - Transaction.amount t) da)
  ∧ accounts l' !! Transaction.creditAccountId t
    = Some (Account.add_balance (- (newAmount - Transaction.amount t)) ca)
  ∧ Transaction.amount <$> transactions l' !! id = Some newAmount.
Proof.
  intros Ht Hne Hd Hc updates l'. unfold l'. split; [|split].
  - rewrite (accounts_updateTransaction _ _ _ t) by done. rewrite Hd. simpl.
    do 2 f_equal. unfold contribution. simpl.
    repeat case_decide; try congruence; lia.
  - rewrite (accounts_updateTransaction _ _ _ t) by done. rewrite Hc. simpl.
    do 2 f_equal. unfold contribution. simpl.
    repeat case_decide; try congruence; lia.
  - unfold after. rewrite updateTransaction_run, Ht. cbn zeta.
    rewrite accepts_same_accounts by done. cbn [snd].
    unfold with_transactions. cbn [transactions]. by rewrite lookup_insert_eq.
Qed.

Lemma update_amount_shifts_balances_witness :
  Account.balance
    <$> accounts (after (TransactionService.updateTransaction 1
                           (Patch.mk None (Some (fixed2 75 0)) None None None None None None
                              None None None)) demo_ledger) !! 2
  = Some (fixed2 75 0).
Proof.
  destruct (update_amount_shifts_balances 1 demo_purchase (fixed2 75 0) demo_ledger
              (Account.mk "Groceries" AccountType.EXPENSE None (fixed2 50 0) true)
              (Account.mk "Checking" AccountType.ASSET_BANK None (fixed2 (-50) 0) true))
    as (Hdebit & _).
  - vm_compute. reflexivity.
  - done.
  - vm_compute. reflexivity.
  - vm_compute. reflexivity.
  - cbn [demo_purchase Transaction.debitAccountId] in Hdebit. rewrite Hdebit.
    vm_compute. reflexivity.
Defined.

Lemma ledger_eq (l1 l2 : Ledger) :
  accounts l1 = accounts l2 → transactions l1 = transactions l2 →
  categories l1 = categories l2 → l1 = l2.
Proof. destruct l1, l2. simpl. by intros -> -> ->. Qed.



(** X6. Changing only the debit account of a stored transaction, the old
    debit account, the new one and the credit account being three
    different existing accounts, takes the amount off the old debit
    account, adds it to the new one, and leaves the credit account as it
    was. *)
Theorem update_debit_account_moves_amount
    (id : Z) (t : Transaction.t) (newDebit : Z) (l : Ledger) (old new credit : Account.t) :
  transactions l !! id = Some t →
  Transaction.debitAccountId t ≠ Transaction.creditAccountId t →
  newDebit ≠ Transaction.debitAccountId t →
  newDebit ≠ Transaction.creditAccountId t →
  accounts l !! Transaction.debitAccountId t = Some old →
  accounts l !! newDebit = Some new →
  accounts l !! Transaction.creditAccountId t = Some credit →
  let updates := Patch.mk None None None None None None (Some newDebit) None None None None in
  let l' := after (TransactionService.updateTransaction id updates) l in
  accounts l' !! Transaction.debitAccountId t
    = Some (Account.add_balance (- Transaction.amount t) old)
  ∧ accounts l' !! newDebit = Some (Account.add_balance (Transaction.amount t) new)
  ∧ accounts l' !! Transaction.creditAccountId t = Some credit
  ∧ Transaction.debitAccountId <$> transactions l' !! id = Some newDebit.
Proof.
  intros Ht Hne Hn1 Hn2 Hold Hnew Hcredit updates l'. unfold l'.
  repeat split.
  - rewrite (accounts_updateTransaction _ _ _ t) by done. rewrite Hold. simpl.
    do 2 f_equal. unfold contribution. simpl.
    repeat case_decide; try congruence; lia.
  - rewrite (accounts_updateTransaction _ _ _ t) by done. rewrite Hnew. simpl.
    do 2 f_equal. unfold contribution. simpl.
    repeat case_decide; try congruence; lia.
  - rewrite (accounts_updateTransaction _ _ _ t) by done. rewrite Hcredit. simpl.
    rewrite <- (add_balance_zero credit) at 2.
    do 2 f_equal. unfold contribution. simpl.
    repeat case_decide; try congruence; lia.
  - unfold after. rewrite updateTransaction_run, Ht. cbn zeta.
    rewrite accepts_known_accounts by (simpl; by eexists). cbn [snd].
    unfold with_transactions. cbn [transactions]. by rewrite lookup_insert_eq.
Qed.

Lemma update_debit_account_moves_amount_witness :
  let l' := after (TransactionService.updateTransaction 1
                     (Patch.mk None None None None None None (Some 3) None None None None))
              three_account_ledger in
  (Account.balance <$> accounts l' !! 2, Account.balance <$> accounts l' !! 3)
  = (Some 0, Some (fixed2 50 0)).
Proof.
  destruct (update_debit_account_moves_amount 1 demo_purchase 3 three_account_ledger
              (Account.mk "Groceries" AccountType.EXPENSE None (fixed2 50 0) true)
              (Account.mk "Dining" AccountType.EXPENSE None 0 true)
              (Account.mk "Checking" AccountType.ASSET_BANK None (fixed2 (-50) 0) true))
    as (Hold & Hnew & _).
  - vm_compute. reflexivity.
  - done.
  - done.
  - done.
  - vm_compute. reflexivity.
  - vm_compute. reflexivity.
  - vm_compute. reflexivity.
  - cbn [demo_purchase Transaction.debitAccountId] in Hold.
    cbv zeta. rewrite Hold, Hnew. vm_compute. reflexivity.
Defined.

(** ** Bulk operations *)

Section bulk_operations.
Import TransactionService.

Lemma contribution_of_rows_perm x rows1 rows2 :
  rows1 ≡ₚ rows2 → contribution_of_rows x rows1 = contribution_of_rows x rows2.
Proof.
  unfold contribution_of_rows.
  induction 1 as [|row ?? _ IH| |??? _ IH1 _ IH2]; simpl; lia.
Qed.

Lemma posting_sum_rows x (txs : gmap Z Transaction.t) :
  posting_sum x txs = contribution_of_rows x (map_to_list txs).
Proof.
  unfold posting_sum, contribution_of_rows. rewrite map_fold_foldr.
  induction (map_to_list txs) as [|[k t] rows IH]; simpl; [done|]. by rewrite IH.
Qed.

Lemma map_to_list_filter_perm {A} (P : Z * A → Prop) `{∀ x, Decision (P x)}
    (m : gmap Z A) :
  map_to_list (filter P m) ≡ₚ filter P (map_to_list m).
Proof.
  apply NoDup_Permutation.
  - apply NoDup_map_to_list.
  - apply NoDup_filter, NoDup_map_to_list.
  - intros [k v]. rewrite list_elem_of_filter, !elem_of_map_to_list.
    rewrite map_lookup_filter_Some. by split; intros [??].
Qed.

Lemma contribution_of_rows_split x (P : Z * Transaction.t → Prop)
    `{∀ row, Decision (P row)} rows :
  contribution_of_rows x rows
  = contribution_of_rows x (filter P rows)
    + contribution_of_rows x (filter (λ row, ¬ P row) rows).
Proof.
  unfold contribution_of_rows.
  induction rows as [|row rows IH]; [done|].
  destruct (decide (P row)).
  - rewrite filter_cons_True, (filter_cons_False (λ row, ¬ P row)) by auto.
    simpl. lia.
  - rewrite filter_cons_False, (filter_cons_True (λ row, ¬ P row)) by auto.
    simpl. lia.
Qed.

(** The loop of [bulkDeleteTransactions]: it reverses the posting of every
    row it is given and touches nothing but the accounts. *)
Lemma reversal_loop_run rows l :
  ∃ accs,
    for_each rows (λ kt,
      updateAccountBalances (Transaction.debitAccountId kt.2)
        (Transaction.creditAccountId kt.2) (- Transaction.amount kt.2)) l
    = (Return tt, mkLedger accs (transactions l) (categories l))
    ∧ ∀ x, accs !! x
           = Account.add_balance (- contribution_of_rows x rows) <$> accounts l !! x.
Proof.
  revert l. induction rows as [|[k t] rows IH]; intros l.
  - exists (accounts l). split; [by destruct l|].
    intros x. destruct (accounts l !! x) as [acc|]; [simpl|done].
    by rewrite add_balance_zero.
  - cbn [for_each]. unfold bind at 1. rewrite updateAccountBalances_run.
    cbn [fst snd].
    set (l1 := mkLedger _ _ _).
    destruct (IH l1) as (accs & Hrun & Haccs).
    exists accs. split; [exact Hrun|].
    intros x. rewrite Haccs.
    assert (accounts l1 !! x
            = Account.add_balance
                (posting_delta (Transaction.debitAccountId t)
                   (Transaction.creditAccountId t) (- Transaction.amount t) x)
                <$> accounts l !! x) as ->.
    { rewrite <- accounts_updateAccountBalances. unfold after.
      by rewrite updateAccountBalances_run. }
    destruct (accounts l !! x) as [acc|]; [simpl|done].
    rewrite add_balance_add. do 2 f_equal.
    rewrite contribution_delta. unfold posting_delta. repeat case_decide; lia.
Qed.

End bulk_operations.

(** X7. After [bulkDeleteTransactions] no row whose id is in the list is
    stored and every other row is unchanged; and if the stored balances
    were the posting sums before, they are the posting sums of the
    remaining rows afterwards.  For a list that is not empty the call
    returns, also when some of its ids match no row.  (What the store
    answers to a delete without any id is not part of the source.) *)
Theorem bulk_delete_removes_rows_and_keeps_invariant (ids : list Z) (l : Ledger) :
  balanced l →
  let l' := after (TransactionService.bulkDeleteTransactions ids) l in
  (ids ≠ [] → outcome (TransactionService.bulkDeleteTransactions ids) l = Return tt)
  ∧ (∀ id, transactions l' !! id
           = if decide (id ∈ ids) then None else transactions l !! id)
  ∧ balanced l'.
Proof.
  intros Hb l'.
  destruct (reversal_loop_run
              (filter (λ kt : Z * Transaction.t, kt.1 ∈ ids) (map_to_list (transactions l))) l)
    as (accs & Hloop & Haccs).
  assert (TransactionService.bulkDeleteTransactions ids l
          = (Return tt,
             mkLedger accs (filter (λ kt : Z * Transaction.t, kt.1 ∉ ids) (transactions l))
               (categories l))) as Hrun.
  { unfold TransactionService.bulkDeleteTransactions.
    unfold bind at 1, get_ledger. unfold bind at 1. by rewrite Hloop. }
  unfold l', outcome, after. rewrite Hrun. cbn [fst snd transactions accounts].
  split; [done|]. split.
  - intros id. rewrite map_lookup_filter.
    destruct (transactions l !! id) as [t|]; simpl.
    + case_decide; [by rewrite option_guard_False by auto
                   |by rewrite option_guard_True by auto].
    + by case_decide.
  - intros x a. cbn [accounts transactions]. rewrite Haccs.
    destruct (accounts l !! x) as [acc|] eqn:Hx; [simpl|done]. intros [= <-]. simpl.
    rewrite (Hb x acc Hx), !posting_sum_rows.
    rewrite (contribution_of_rows_perm _ _ _ (map_to_list_filter_perm _ _)).
    rewrite (contribution_of_rows_split x (λ kt, kt.1 ∈ ids) (map_to_list (transactions l))).
    lia.
Qed.

(** The run of [bulkDelete] on the demo ledger: the purchase is gone and both
    balances are back to zero. *)
Example bulk_delete_demo :
  let l' := after (TransactionService.bulkDeleteTransactions [1; 7]) demo_ledger in
  (map_to_list (transactions l'),
   Account.balance <$> accounts l' !! 1, Account.balance <$> accounts l' !! 2)
  = ([], Some 0, Some 0).
Proof. vm_compute. reflexivity. Qed.

(** X8. For a stored transaction and a patch without amount and account
    ids, [bulkUpdateTransactions] called with that one id leaves the same
    ledger as [updateTransaction]. *)
Theorem bulk_update_of_one_row_is_update
    (id : Z) (t : Transaction.t) (updates : Patch.t) (l : Ledger) :
  transactions l !! id = Some t →
  Patch.amount updates = None →
  Patch.debitAccountId updates = None →
  Patch.creditAccountId updates = None →
  after (TransactionService.bulkUpdateTransactions [id] updates) l
  = after (TransactionService.updateTransaction id updates) l.
Proof.
  intros Ht Ha Hd Hc.
  assert (∀ row, Store.accepts l row (TransactionService.assign row updates) = true)
    as Haccepted.
  { intros row. apply accepts_same_accounts; unfold TransactionService.assign; simpl.
    - by rewrite Hd.
    - by rewrite Hc. }
  unfold after at 2. rewrite updateTransaction_run, Ht. cbn zeta. rewrite Haccepted.
  unfold TransactionService.touches_balance. rewrite Ha, Hd, Hc. cbn [snd].
  unfold after. rewrite bulkUpdateTransactions_run.
  rewrite bool_decide_eq_false_2 by done.
  rewrite bool_decide_eq_true_2 by (intros k row _ _; apply Haccepted).
  cbn [snd]. apply ledger_eq; try done.
  unfold with_transactions.
  cbn [transactions]. apply map_eq. intros k. rewrite map_lookup_imap.
  destruct (decide (k = id)) as [->|Hne].
  - rewrite Ht, lookup_insert_eq. simpl.
    case_bool_decide as Hin; [done|]. exfalso. apply Hin. by apply list_elem_of_singleton.
  - rewrite lookup_insert_ne by done.
    destruct (transactions l !! k) as [t'|] eqn:Hk; simpl; [|done].
    case_bool_decide as Hin; [|done]. by apply list_elem_of_singleton in Hin.
Qed.

Lemma bulk_update_of_one_row_is_update_witness :
  after (TransactionService.bulkUpdateTransactions [1] (description_only "Farmers market"))
    demo_ledger
  = after (TransactionService.updateTransaction 1 (description_only "Farmers market"))
      demo_ledger.
Proof.
  apply (bulk_update_of_one_row_is_update 1 demo_purchase).
  - vm_compute. reflexivity.
  - reflexivity.
  - reflexivity.
  - reflexivity.
Defined.

Lemma bulk_delete_removes_rows_and_keeps_invariant_witness :
  balanced demo_ledger
  ∧ balanced (after (TransactionService.bulkDeleteTransactions [1; 7]) demo_ledger).
Proof.
  split; [apply demo_ledger_balanced|].
  apply (bulk_delete_removes_rows_and_keeps_invariant [1; 7] demo_ledger
           demo_ledger_balanced).
Defined.

(** ** Double entry: the balances add up to zero *)

Section sums_over_keys.
Context {A : Type}.
Implicit Types (table : gmap Z A) (f g : Z → Z).

Lemma sum_over_keys_empty f : sum_over_keys f (∅ : gmap Z A) = 0.
Proof. unfold sum_over_keys. by rewrite map_fold_empty. Qed.

Lemma sum_over_keys_insert f table k v :
  table !! k = None →
  sum_over_keys f (<[k:=v]> table) = sum_over_keys f table + f k.
Proof.
  intros Hk. unfold sum_over_keys.
  rewrite map_fold_insert_L; [done| |done]. intros; lia.
Qed.

Lemma sum_over_keys_ext f g table :
  (∀ k, is_Some (table !! k) → f k = g k) →
  sum_over_keys f table = sum_over_keys g table.
Proof.
  induction table as [|k v table Hk IH] using map_ind; intros Hfg.
  - by rewrite !sum_over_keys_empty.
  - rewrite !sum_over_keys_insert by done. rewrite IH, Hfg; [done| |].
    + rewrite lookup_insert_eq. by eexists.
    + intros j Hj. apply Hfg. destruct (decide (k = j)) as [->|Hne].
      * rewrite lookup_insert_eq. by eexists.
      * by rewrite lookup_insert_ne.
Qed.

Lemma sum_over_keys_zero table : sum_over_keys (λ _, 0) table = 0.
Proof.
  induction table as [|k v table Hk IH] using map_ind.
  - apply sum_over_keys_empty.
  - rewrite sum_over_keys_insert by done. lia.
Qed.

Lemma sum_over_keys_add f g table :
  sum_over_keys (λ k, f k + g k) table = sum_over_keys f table + sum_over_keys g table.
Proof.
  induction table as [|k v table Hk IH] using map_ind.
  - by rewrite !sum_over_keys_empty.
  - rewrite !sum_over_keys_insert by done. lia.
Qed.

(** An amount attached to one key is counted once if the key is in the
    table, and not at all otherwise. *)
Lemma sum_over_keys_at d a table :
  sum_over_keys (λ k, if decide (d = k) then a else 0) table
  = if decide (is_Some (table !! d)) then a else 0.
Proof.
  induction table as [|k v table Hk IH] using map_ind.
  - rewrite sum_over_keys_empty. rewrite decide_False; [done|].
    rewrite lookup_empty. by intros [??].
  - rewrite sum_over_keys_insert by done. rewrite IH.
    destruct (decide (d = k)) as [->|Hne].
    + rewrite lookup_insert_eq. rewrite decide_False by (rewrite Hk; by intros [??]).
      rewrite decide_True by (by eexists). lia.
    + rewrite lookup_insert_ne by done. lia.
Qed.

End sums_over_keys.

Lemma total_balance_as_sum l :
  balanced l →
  total_balance l = sum_over_keys (λ x, posting_sum x (transactions l)) (accounts l).
Proof.
  unfold balanced, total_balance. generalize (transactions l) as txs.
  intros txs. generalize (accounts l) as accs. clear l.
  intros accs. induction accs as [|k a accs Hk IH] using map_ind; intros Hb.
  - by rewrite map_fold_empty, sum_over_keys_empty.
  - rewrite sum_over_keys_insert by done.
    rewrite map_fold_insert_L; [| intros; lia | done].
    rewrite IH.
    + rewrite (Hb k a) by apply lookup_insert_eq. done.
    + intros x b Hx. apply Hb. rewrite lookup_insert_ne; [done|].
      intros ->. by rewrite Hk in Hx.
Qed.

(** The trial balance: every stored transaction adds its amount to one
    existing account and takes it from another. *)
Lemma trial_balance (l : Ledger) :
  balanced l → referential l → total_balance l = 0.
Proof.
  intros Hb Href. rewrite total_balance_as_sum by done.
  unfold referential in Href. clear Hb.
  generalize dependent (transactions l). intros txs.
  induction txs as [|k t txs Hk IH] using map_ind; intros Href.
  - rewrite (sum_over_keys_ext _ (λ _, 0)).
    + apply sum_over_keys_zero.
    + intros. apply posting_sum_empty.
  - rewrite (sum_over_keys_ext _
               (λ x, posting_sum x txs
                     + ((if decide (Transaction.debitAccountId t = x)
                         then Transaction.amount t else 0)
                        + (if decide (Transaction.creditAccountId t = x)
                           then - Transaction.amount t else 0)))).
    2:{ intros x _. rewrite posting_sum_insert by done. unfold contribution.
        repeat case_decide; lia. }
    rewrite !sum_over_keys_add, !sum_over_keys_at.
    destruct (Href k t) as [Hd Hc]; [apply lookup_insert_eq|].
    rewrite !decide_True by done.
    rewrite IH; [lia|].
    intros id t' Hid. apply (Href id t'). rewrite lookup_insert_ne; [done|].
    intros ->. by rewrite Hk in Hid.
Qed.

(** X9. In a ledger whose balances are the posting sums and whose stored
    transactions all name existing accounts, the balances of all accounts
    add up to zero. *)
Theorem balances_add_up_to_zero (l : Ledger) :
  balanced l → referential l → total_balance l = 0.
Proof. apply trial_balance. Qed.

Lemma demo_ledger_referential : referential demo_ledger.
Proof.
  intros id t Hid. unfold demo_ledger in *. cbn [accounts transactions] in *.
  apply lookup_insert_Some in Hid as [[_ <-]|[_ Hid]].
  - split; vm_compute; by eexists.
  - by rewrite lookup_empty in Hid.
Qed.

Lemma balances_add_up_to_zero_witness :
  balanced demo_ledger ∧ referential demo_ledger ∧ total_balance demo_ledger = 0.
Proof.
  split; [apply demo_ledger_balanced|]. split; [apply demo_ledger_referential|].
  apply balances_add_up_to_zero;
    [apply demo_ledger_balanced|apply demo_ledger_referential].
Defined.

(** ** Referential integrity under the posting engine *)

Section referential_integrity.
Import TransactionService.

Lemma posting_keeps_accounts d c a l x :
  is_Some (accounts (after (updateAccountBalances d c a) l) !! x)
  ↔ is_Some (accounts l !! x).
Proof. rewrite accounts_updateAccountBalances. apply fmap_is_Some. Qed.

(** The ledger in which [updateTransaction] calls [save] has the rows and
    the account keys of the ledger it started from. *)
Lemma posted_keeps_rows_and_keys (u : Patch.t) (old : Transaction.t) l :
  let posted :=
    if touches_balance u then
      after (updateAccountBalances
               (Transaction.debitAccountId (assign old u))
               (Transaction.creditAccountId (assign old u))
               (Transaction.amount (assign old u)))
        (after (updateAccountBalances (Transaction.debitAccountId old)
                  (Transaction.creditAccountId old) (- Transaction.amount old)) l)
    else l in
  transactions posted = transactions l
  ∧ ∀ x, is_Some (accounts posted !! x) ↔ is_Some (accounts l !! x).
Proof.
  destruct (touches_balance u); cbn zeta; [|done].
  split; [done|]. intros x. by rewrite !posting_keeps_accounts.
Qed.

(** No operation of the posting engine adds or removes an account. *)
Lemma perform_keeps_accounts op l x :
  is_Some (accounts (perform op l) !! x) ↔ is_Some (accounts l !! x).
Proof.
  destruct op as [d|id u|id]; simpl; unfold after at 1.
  - rewrite createTransaction_run.
    destruct (accounts l !! TransactionData.debitAccountId d),
             (accounts l !! TransactionData.creditAccountId d); cbn [snd]; try done.
    by rewrite posting_keeps_accounts.
  - rewrite updateTransaction_run.
    destruct (transactions l !! id) as [old|]; cbn [snd]; [|done].
    cbn zeta. destruct (posted_keeps_rows_and_keys u old l) as [_ Hkeys].
    destruct (Store.accepts l old (assign old u)); cbn [snd];
      unfold with_transactions; cbn [accounts]; apply Hkeys.
  - rewrite deleteTransaction_run.
    destruct (transactions l !! id); cbn [snd]; [|done].
    unfold with_transactions. cbn [accounts].
    by rewrite posting_keeps_accounts.
Qed.

(** Every operation keeps the references: [createTransaction] has looked
    both accounts up, and a row that [updateTransaction] moves to an
    account that does not exist is refused by the store. *)
Lemma referential_perform op l : referential l → referential (perform op l).
Proof.
  intros Href id t.
  assert (∀ x, is_Some (accounts l !! x) → is_Some (accounts (perform op l) !! x))
    as Hkeep by (intros x; apply perform_keeps_accounts).
  destruct op as [d|uid u|did]; simpl in *; unfold after at 1.
  - rewrite createTransaction_run.
    destruct (accounts l !! TransactionData.debitAccountId d) eqn:Hd;
      [destruct (accounts l !! TransactionData.creditAccountId d) eqn:Hc|];
      cbn [snd]; try (intros Hid; split; apply Hkeep; by apply (Href id t)).
    rewrite transactions_updateAccountBalances. cbn [transactions].
    intros [[_ <-]|[_ Hid]]%lookup_insert_Some.
    + split; apply Hkeep; simpl; by eexists.
    + split; apply Hkeep; by apply (Href id t).
  - rewrite updateTransaction_run.
    destruct (transactions l !! uid) as [old|] eqn:Hold; cbn [snd];
      [|intros Hid; split; apply Hkeep; by apply (Href id t)].
    cbn zeta. destruct (posted_keeps_rows_and_keys u old l) as [Hrows _].
    destruct (Store.accepts l old (assign old u)) eqn:Haccepted; cbn [snd].
    + unfold with_transactions. cbn [transactions]. rewrite Hrows.
      intros [[_ <-]|[_ Hid]]%lookup_insert_Some.
      * destruct (Href uid old Hold) as [Hod Hoc].
        destruct (accepts_keeps_references l old (assign old u) Haccepted Hod Hoc).
        split; by apply Hkeep.
      * split; apply Hkeep; by apply (Href id t).
    + rewrite Hrows. intros Hid. split; apply Hkeep; by apply (Href id t).
  - rewrite deleteTransaction_run.
    destruct (transactions l !! did) as [old|] eqn:Hold; cbn [snd];
      [|intros Hid; split; apply Hkeep; by apply (Href id t)].
    unfold with_transactions. cbn [transactions].
    rewrite transactions_updateAccountBalances.
    intros [_ Hid]%lookup_delete_Some.
    split; apply Hkeep; by apply (Href id t).
Qed.

End referential_integrity.

(** X10. The posting engine never leaves a stored transaction that names a
    missing account.  Starting from a ledger whose stored transactions all
    name existing accounts, the same holds after any sequence of create,
    update and delete operations, whatever their arguments are and
    whether they return or throw: [createTransaction] refuses unknown
    account ids itself, and an update that moves a row to an unknown
    account is refused when the row is saved. *)
Theorem references_are_kept (ops : list Operation) (l : Ledger) :
  referential l → referential (perform_all ops l).
Proof.
  revert l. induction ops as [|op ops IH]; intros l Href; [done|].
  simpl. apply IH. by apply referential_perform.
Qed.

Lemma references_are_kept_witness :
  referential demo_ledger
  ∧ referential
      (perform_all (demo_operations ++ [Update 1 debit_to_unknown_account]) demo_ledger).
Proof.
  split; [apply demo_ledger_referential|].
  apply (references_are_kept (demo_operations ++ [Update 1 debit_to_unknown_account])
           demo_ledger).
  apply demo_ledger_referential.
Defined.

(** * Further properties of the import execution *)

(** X11. [importTransactions] for a target id that matches no account throws
    "Target account not found" before it looks at any candidate, and
    writes nothing. *)
Theorem import_into_unknown_account_throws
    (preview : ImportService.ImportPreview) (accountId : Z)
    (defaultCreditAccountId defaultDebitAccountId : option Z) (now : Z) (l : Ledger) :
  accounts l !! accountId = None →
  ImportService.importTransactions preview accountId defaultCreditAccountId
    defaultDebitAccountId now l
  = (Throw "Target account not found", l).
Proof.
  intros Hmissing. unfold ImportService.importTransactions.
  unfold bind at 1, get_ledger. by rewrite Hmissing.
Qed.

Lemma import_into_unknown_account_throws_witness :
  ImportService.importTransactions demo_preview 9 None None 1733011200000 demo_ledger
  = (Throw "Target account not found", demo_ledger).
Proof. apply import_into_unknown_account_throws. vm_compute. reflexivity. Defined.

(** ** An import run only adds *)

Section keeping.
Context (I : Ledger → Prop).

Lemma keeps_ret {A} (a : A) : keeps I (ret a).
Proof. by intros l. Qed.

Lemma keeps_bind {A B} (m : Async A) (k : A → Async B) :
  keeps I m → (∀ a, keeps I (k a)) → keeps I (bind m k).
Proof.
  intros Hm Hk l Hl. unfold after, bind. specialize (Hm l Hl). unfold after in Hm.
  destruct (m l) as [[a|e] l']; simpl in *; [by apply Hk|done].
Qed.

Lemma keeps_try_catch {A} (m : Async A) handler :
  keeps I m → (∀ e, keeps I (handler e)) → keeps I (try_catch m handler).
Proof.
  intros Hm Hh l Hl. unfold after, try_catch. specialize (Hm l Hl). unfold after in Hm.
  destruct (m l) as [[a|e] l']; simpl in *; [done|by apply Hh].
Qed.

End keeping.

Section import_adds.
Context (start : Ledger).

Lemma has_all_of_itself l : has_all_of l l.
Proof. repeat split; try done. intros x a Hx. by exists a. Qed.

Lemma has_all_of_later l1 l2 l3 : has_all_of l1 l2 → has_all_of l2 l3 → has_all_of l1 l3.
Proof.
  intros (Hrows & Hcats & Haccs) (Hrows' & Hcats' & Haccs').
  split; [|split]; [by auto..|].
  intros x a Hx. destruct (Haccs x a Hx) as (a' & Hx' & Hname & Htype).
  destruct (Haccs' x a' Hx') as (a'' & Hx'' & Hname' & Htype').
  exists a''. split; [done|]. split; congruence.
Qed.

(** A method whose every run leaves a ledger that has all of the ledger it
    started from keeps what [start] had. *)
Lemma keeps_by_adding {A} (m : Async A) :
  (∀ l, has_all_of l (after m l)) → keeps (has_all_of start) m.
Proof. intros Hm l Hl. by apply (has_all_of_later _ l). Qed.

Lemma createTransaction_adds d l :
  has_all_of l (after (TransactionService.createTransaction d) l).
Proof.
  unfold after. rewrite createTransaction_run.
  destruct (accounts l !! TransactionData.debitAccountId d) as [debitAccount|];
    [destruct (accounts l !! TransactionData.creditAccountId d) as [creditAccount|]|];
    cbn [snd]; try apply has_all_of_itself.
  split; [|split].
  - intros id t Hid. rewrite transactions_updateAccountBalances. cbn [transactions].
    rewrite lookup_insert_ne; [done|].
    intros <-. by rewrite generated_id_fresh in Hid.
  - done.
  - intros x acc Hx. rewrite accounts_updateAccountBalances. cbn [accounts].
    rewrite Hx. by eexists.
Qed.

Lemma getOrCreateAccount_adds name type description l :
  has_all_of l (after (ImportService.getOrCreateAccount name type description) l).
Proof.
  unfold after, ImportService.getOrCreateAccount, bind at 1, get_ledger.
  destruct (ImportService.findOne _ (accounts l)) as [[id a]|];
    [apply has_all_of_itself|].
  unfold ImportService.save_account, bind, get_ledger, modify, ret, with_accounts.
  cbn [snd accounts transactions categories].
  split; [done|]. split; [done|].
  intros x acc Hx. exists acc. split; [|done]. cbn [accounts].
  rewrite lookup_insert_ne; [done|].
  intros <-. by rewrite generated_id_fresh in Hx.
Qed.

Lemma getOrCreateCategory_adds name type l :
  has_all_of l (after (ImportService.getOrCreateCategory name type) l).
Proof.
  unfold after, ImportService.getOrCreateCategory, bind at 1, get_ledger.
  destruct (ImportService.findOne _ (categories l)) as [[id c]|];
    [apply has_all_of_itself|].
  unfold ImportService.save_category, bind, get_ledger, modify, ret, with_categories.
  cbn [snd accounts transactions categories].
  split; [done|]. split.
  - intros k c Hk. cbn [categories]. rewrite lookup_insert_ne; [done|].
    intros <-. by rewrite generated_id_fresh in Hk.
  - intros x acc Hx. by exists acc.
Qed.

Lemma post_row_keeps accountId dc dd importBatch row :
  keeps (has_all_of start) (ImportService.post_row accountId dc dd importBatch row).
Proof.
  unfold ImportService.post_row.
  apply keeps_bind.
  - destruct (ImportService.isDebit row); (apply keeps_bind; [|intros; apply keeps_ret]);
      unfold ImportService.or_else;
      [destruct (Js.truthy_number dd)|destruct (Js.truthy_number dc)];
      try apply keeps_ret;
      apply keeps_by_adding; intros; apply getOrCreateAccount_adds.
  - intros ids. apply keeps_bind.
    + destruct (Js.truthy_string (ImportService.category row)); [|apply keeps_ret].
      apply keeps_bind; [|intros; apply keeps_ret].
      apply keeps_by_adding. intros. apply getOrCreateCategory_adds.
    + intros categoryId. apply keeps_bind; [|intros; apply keeps_ret].
      apply keeps_by_adding. intros. apply createTransaction_adds.
Qed.

Lemma import_rows_keeps accountId dc dd importBatch rows successCount errors :
  keeps (has_all_of start)
    (ImportService.import_rows accountId dc dd importBatch rows successCount errors).
Proof.
  revert successCount errors.
  induction rows as [|row rows IH]; intros successCount errors; [apply keeps_ret|].
  cbn [ImportService.import_rows]. apply keeps_bind; [|intros; apply IH].
  apply keeps_try_catch; [|intros; apply keeps_ret].
  apply keeps_bind; [apply post_row_keeps|intros; apply keeps_ret].
Qed.

End import_adds.

(** X12. An import run only adds.  Whatever the preview, the target and the
    default accounts are, and whether the run returns or throws and
    however many candidates fail, afterwards every transaction row and
    every category that was stored before the run is stored unchanged,
    and every account that existed is still there under its key, with its
    name and type. *)
Theorem import_only_adds
    (preview : ImportService.ImportPreview) (accountId : Z)
    (defaultCreditAccountId defaultDebitAccountId : option Z) (now : Z) (l : Ledger) :
  has_all_of l
    (after (ImportService.importTransactions preview accountId
              defaultCreditAccountId defaultDebitAccountId now) l).
Proof.
  unfold ImportService.importTransactions, after, bind at 1, get_ledger.
  destruct (accounts l !! accountId); [|apply has_all_of_itself].
  apply (keeps_bind (has_all_of l)); [apply import_rows_keeps|intros; apply keeps_ret|].
  apply has_all_of_itself.
Qed.

(** ** Find-or-create is idempotent *)

Section find_or_create_twice.

(** After a row that satisfies [P] has been stored under an unused key of a
    table without such a row, [findOne] finds exactly that row. *)
Lemma findOne_after_insert {A} (P : A → Prop) `{∀ a, Decision (P a)}
    (table : gmap Z A) k a :
  table !! k = None → P a →
  ImportService.findOne P table = None →
  ImportService.findOne P (<[k := a]> table) = Some (k, a).
Proof.
  intros Hk HP Hnone. unfold ImportService.findOne in *.
  apply head_None in Hnone.
  assert (filter (λ row : Z * A, P row.2) (map_to_list (<[k := a]> table))
          ≡ₚ [(k, a)]) as Hperm.
  { rewrite map_to_list_insert by done.
    rewrite filter_cons_True by done. by rewrite Hnone. }
  apply Permutation_singleton_r in Hperm. by rewrite Hperm.
Qed.

Lemma getOrCreateAccount_twice accountName type description description' l :
  ∃ id a,
    outcome (ImportService.getOrCreateAccount accountName type description) l = Return id
    ∧ accounts (after (ImportService.getOrCreateAccount accountName type description) l) !! id
      = Some a
    ∧ Account.name a = accountName ∧ Account.type a = type
    ∧ ImportService.getOrCreateAccount accountName type description'
        (after (ImportService.getOrCreateAccount accountName type description) l)
      = (Return id,
         after (ImportService.getOrCreateAccount accountName type description) l).
Proof.
  destruct (ImportService.findOne
              (λ a, Account.name a = accountName ∧ Account.type a = type) (accounts l))
    as [[id a]|] eqn:Hfind.
  - exists id, a. unfold outcome, after.
    rewrite (getOrCreateAccount_present _ _ _ _ id a Hfind). cbn [fst snd].
    apply findOne_Some in Hfind as Hrow. destruct Hrow as (Hid & Hname & Htype).
    repeat split; try done. by apply (getOrCreateAccount_present _ _ _ _ id a).
  - pose proof (proj1 (findOne_None _ (accounts l)) Hfind) as Habsent.
    exists (generated_id (accounts l)),
           (Account.mk accountName type (Some description) 0 true).
    unfold outcome, after. rewrite (getOrCreateAccount_absent _ _ _ _ Habsent).
    cbn [fst snd]. unfold with_accounts at 1. cbn [accounts].
    rewrite lookup_insert_eq. repeat split; try done.
    apply (getOrCreateAccount_present _ _ _ _ (generated_id (accounts l))
             (Account.mk accountName type (Some description) 0 true)).
    unfold with_accounts. cbn [accounts].
    apply (findOne_after_insert (λ a, Account.name a = accountName ∧ Account.type a = type));
      [apply generated_id_fresh|done|done].
Qed.

Lemma getOrCreateCategory_present categoryName type l k c :
  ImportService.findOne (λ c, Category.name c = categoryName ∧ Category.type c = type)
    (categories l) = Some (k, c) →
  ImportService.getOrCreateCategory categoryName type l = (Return k, l).
Proof.
  intros Hfound. unfold ImportService.getOrCreateCategory. run. by rewrite Hfound.
Qed.

Lemma getOrCreateCategory_absent categoryName type l :
  ImportService.findOne (λ c, Category.name c = categoryName ∧ Category.type c = type)
    (categories l) = None →
  ImportService.getOrCreateCategory categoryName type l
  = (Return (generated_id (categories l)),
     with_categories
       <[generated_id (categories l)
         := Category.mk categoryName type (Some "Auto-created from import") None true]> l).
Proof.
  intros Habsent.
  unfold ImportService.getOrCreateCategory, ImportService.save_category. run.
  by rewrite Habsent.
Qed.

End find_or_create_twice.

(** X13. [getOrCreateExpenseAccount] and [getOrCreateIncomeAccount] return,
    and the account whose id they return is stored with the generated name
    and the type expense (income); a second call for the same category
    returns the same id and writes nothing. *)
Theorem provisioned_account_is_reused (categoryName : option string) (l : Ledger) :
  (∃ id a,
     outcome (ImportService.getOrCreateExpenseAccount categoryName) l = Return id
     ∧ accounts (after (ImportService.getOrCreateExpenseAccount categoryName) l) !! id = Some a
     ∧ Account.name a = ImportService.account_name "Expenses" categoryName
     ∧ Account.type a = AccountType.EXPENSE
     ∧ ImportService.getOrCreateExpenseAccount categoryName
         (after (ImportService.getOrCreateExpenseAccount categoryName) l)
       = (Return id, after (ImportService.getOrCreateExpenseAccount categoryName) l))
  ∧ (∃ id a,
       outcome (ImportService.getOrCreateIncomeAccount categoryName) l = Return id
       ∧ accounts (after (ImportService.getOrCreateIncomeAccount categoryName) l) !! id = Some a
       ∧ Account.name a = ImportService.account_name "Income" categoryName
       ∧ Account.type a = AccountType.INCOME
       ∧ ImportService.getOrCreateIncomeAccount categoryName
           (after (ImportService.getOrCreateIncomeAccount categoryName) l)
         = (Return id, after (ImportService.getOrCreateIncomeAccount categoryName) l)).
Proof.
  split; unfold ImportService.getOrCreateExpenseAccount,
    ImportService.getOrCreateIncomeAccount; apply getOrCreateAccount_twice.
Qed.

(** X14. [getOrCreateCategory] returns the id of a stored category with the
    given name and type; a second call with the same name and type returns
    the same id and writes nothing. *)
Theorem provisioned_category_is_reused
    (categoryName : string) (type : CategoryType.t) (l : Ledger) :
  ∃ id c,
    outcome (ImportService.getOrCreateCategory categoryName type) l = Return id
    ∧ categories (after (ImportService.getOrCreateCategory categoryName type) l) !! id
      = Some c
    ∧ Category.name c = categoryName ∧ Category.type c = type
    ∧ ImportService.getOrCreateCategory categoryName type
        (after (ImportService.getOrCreateCategory categoryName type) l)
      = (Return id, after (ImportService.getOrCreateCategory categoryName type) l).
Proof.
  destruct (ImportService.findOne
              (λ c, Category.name c = categoryName ∧ Category.type c = type) (categories l))
    as [[id c]|] eqn:Hfind.
  - exists id, c. unfold outcome, after.
    rewrite (getOrCreateCategory_present _ _ _ id c Hfind). cbn [fst snd].
    apply findOne_Some in Hfind as Hrow. destruct Hrow as (Hid & Hname & Htype).
    repeat split; try done. by apply (getOrCreateCategory_present _ _ _ id c).
  - exists (generated_id (categories l)),
           (Category.mk categoryName type (Some "Auto-created from import") None true).
    unfold outcome, after. rewrite (getOrCreateCategory_absent _ _ _ Hfind).
    cbn [fst snd]. unfold with_categories at 1. cbn [categories].
    rewrite lookup_insert_eq. repeat split; try done.
    apply (getOrCreateCategory_present _ _ _ (generated_id (categories l))
             (Category.mk categoryName type (Some "Auto-created from import") None true)).
    unfold with_categories. cbn [categories].
    apply (findOne_after_insert (λ c, Category.name c = categoryName ∧ Category.type c = type));
      [apply generated_id_fresh|done|done].
Qed.

(** ** Rows that fail, default accounts *)

(** [importTransactions] on a preview with one candidate, once the target
    account is known to exist. *)
Lemma import_single_candidate_run candidate mapping accountId dc dd now l target :
  accounts l !! accountId = Some target →
  ImportService.importTransactions (single_candidate_preview candidate mapping)
    accountId dc dd now l
  = match ImportService.post_row accountId dc dd ("import_" +:+ pretty now) candidate l with
    | (Return _, l') => (Return (ImportService.mkResult 1 []), l')
    | (Throw message, l') =>
        (Return (ImportService.mkResult 0 [ImportService.row_error candidate message]), l')
    end.
Proof.
  intros Htarget. unfold ImportService.importTransactions.
  unfold bind at 1, get_ledger. rewrite Htarget.
  unfold bind. rewrite import_rows_run. unfold single_candidate_preview.
  cbn [ImportService.transactions row_outcomes ledger_after_rows]. unfold after.
  destruct (ImportService.post_row _ _ _ _ _ _) as [[u|message] l']; done.
Qed.

(** X15. A candidate that fails is reported, and what was provisioned for it
    stays: for a debit candidate with a category label, when the default
    debit account id matches no account, the run reports no success and one
    error "Row n: One or both accounts not found", and the expense category
    created for the label remains stored; accounts and transactions are
    untouched. *)
Theorem failed_row_keeps_provisioned_category
    (T d index amount now : Z) (target : Account.t) (l : Ledger)
    (date : JsDate) (description label : string) (reference : option string)
    (dc : option Z) (mapping : ImportService.ImportMapping) :
  accounts l !! T = Some target →
  d ≠ 0 → accounts l !! d = None →
  label ≠ "" →
  (∀ k c, categories l !! k = Some c →
     ¬ (Category.name c = label ∧ Category.type c = CategoryType.EXPENSE)) →
  ImportService.importTransactions
    (single_candidate_preview
       (ImportService.mkCandidate index date amount description reference (Some label) true)
       mapping)
    T dc (Some d) now l
  = (Return (ImportService.mkResult 0
               ["Row " +:+ pretty (index + 1) +:+ ": One or both accounts not found"]),
     with_categories
       <[generated_id (categories l)
         := Category.mk label CategoryType.EXPENSE (Some "Auto-created from import")
              None true]> l).
Proof.
  intros Htarget Hd Hmissing Hlabel Hnocat.
  rewrite (import_single_candidate_run _ _ _ _ _ _ _ target) by done.
  unfold ImportService.post_row.
  cbn [ImportService.isDebit ImportService.category].
  assert (Js.truthy_number (Some d) = Some d) as Htruthy by (by destruct d).
  assert (Js.truthy_string (Some label) = Some label) as Hstring by (by destruct label).
  unfold ImportService.or_else. rewrite Htruthy, Hstring.
  unfold bind at 1. unfold bind at 1. unfold ret at 1. unfold ret at 1.
  unfold bind at 1. unfold bind at 1.
  rewrite getOrCreateCategory_absent
    by (by apply (findOne_None
                    (λ c, Category.name c = label ∧ Category.type c = CategoryType.EXPENSE))).
  unfold ret at 1. unfold bind at 1. rewrite createTransaction_run.
  unfold with_categories at 1 2.
  cbn [accounts TransactionData.debitAccountId TransactionData.creditAccountId fst snd].
  by rewrite Hmissing.
Qed.

Lemma failed_row_keeps_provisioned_category_witness :
  ImportService.importTransactions
    (single_candidate_preview
       (ImportService.mkCandidate 0 (LocalDay 2024 12 1) (fixed2 50 0) "Grocery Store" None
          (Some "Food") true) demo_mapping)
    1 None (Some 99) 1733011200000 demo_ledger
  = (Return (ImportService.mkResult 0 ["Row 1: One or both accounts not found"]),
     with_categories
       <[1 := Category.mk "Food" CategoryType.EXPENSE (Some "Auto-created from import")
                None true]> demo_ledger).
Proof.
  apply (failed_row_keeps_provisioned_category 1 99 0 (fixed2 50 0) 1733011200000
           (Account.mk "Checking" AccountType.ASSET_BANK None (fixed2 (-50) 0) true)
           demo_ledger).
  - vm_compute. reflexivity.
  - done.
  - vm_compute. reflexivity.
  - done.
  - intros k c Hk. vm_compute in Hk. discriminate.
Defined.

(** X16. With a default credit account given (an id other than 0), an
    income candidate without category label is posted by exactly one call
    of [createTransaction] from the default account to the target: the run
    leaves the ledger that call leaves, counts one success if it returned
    and reports its message as a row error if it threw; no account and no
    category is provisioned. *)
Theorem default_credit_account_is_used
    (T d index amount now : Z) (target : Account.t) (l : Ledger)
    (date : JsDate) (description : string) (reference : option string)
    (dd : option Z) (mapping : ImportService.ImportMapping) :
  accounts l !! T = Some target →
  d ≠ 0 →
  let candidate :=
    ImportService.mkCandidate index date amount description reference None false in
  let data :=
    TransactionData.mk date amount description T d None reference
      (Some ("Imported from " +:+ "import_" +:+ pretty now)) in
  ImportService.importTransactions (single_candidate_preview candidate mapping)
    T (Some d) dd now l
  = match TransactionService.createTransaction data l with
    | (Return _, l') => (Return (ImportService.mkResult 1 []), l')
    | (Throw message, l') =>
        (Return (ImportService.mkResult 0 [ImportService.row_error candidate message]), l')
    end.
Proof.
  intros Htarget Hd candidate data.
  rewrite (import_single_candidate_run _ _ _ _ _ _ _ target) by done.
  unfold ImportService.post_row, candidate.
  cbn [ImportService.isDebit ImportService.category Js.truthy_string
       ImportService.date ImportService.amount ImportService.description
       ImportService.reference].
  assert (Js.truthy_number (Some d) = Some d) as Htruthy by (by destruct d).
  unfold ImportService.or_else. rewrite Htruthy.
  unfold bind, ret. cbn [fst snd]. fold data.
  by destruct (TransactionService.createTransaction data l) as [[r|message] l'].
Qed.

Lemma default_credit_account_is_used_witness :
  ImportService.importTransactions
    (single_candidate_preview
       (ImportService.mkCandidate 0 (LocalDay 2024 12 2) (fixed2 20 0) "Refund" None None false)
       demo_mapping)
    1 (Some 2) None 1733011200000 demo_ledger
  = (Return (ImportService.mkResult 1 []),
     after (TransactionService.createTransaction
              (TransactionData.mk (LocalDay 2024 12 2) (fixed2 20 0) "Refund" 1 2 None None
                 (Some "Imported from import_1733011200000")))
       demo_ledger).
Proof.
  rewrite (default_credit_account_is_used 1 2 0 (fixed2 20 0) 1733011200000
             (Account.mk "Checking" AccountType.ASSET_BANK None (fixed2 (-50) 0) true)
             demo_ledger).
  - vm_compute. reflexivity.
  - vm_compute. reflexivity.
  - done.
Defined.

(** X17. A default account id 0 counts as no default account: the run is
    the same as without it. *)
Theorem zero_default_account_is_ignored
    (preview : ImportService.ImportPreview) (accountId : Z)
    (defaultCreditAccountId defaultDebitAccountId : option Z) (now : Z) (l : Ledger) :
  ImportService.importTransactions preview accountId
    defaultCreditAccountId defaultDebitAccountId now l
  = ImportService.importTransactions preview accountId
      (Js.truthy_number defaultCreditAccountId) (Js.truthy_number defaultDebitAccountId)
      now l.
Proof.
  assert (∀ o, Js.truthy_number (Js.truthy_number o) = Js.truthy_number o) as Hidem
    by (by intros [[| |]|]).
  assert (∀ importBatch row,
            ImportService.post_row accountId defaultCreditAccountId
              defaultDebitAccountId importBatch row
            = ImportService.post_row accountId (Js.truthy_number defaultCreditAccountId)
                (Js.truthy_number defaultDebitAccountId) importBatch row) as Hrow.
  { intros importBatch row. unfold ImportService.post_row, ImportService.or_else.
    by rewrite !Hidem. }
  unfold ImportService.importTransactions.
  unfold bind at 1 3, get_ledger. destruct (accounts l !! accountId); [|done].
  assert (∀ rows s es l0,
            ImportService.import_rows accountId defaultCreditAccountId
              defaultDebitAccountId ("import_" +:+ pretty now) rows s es l0
            = ImportService.import_rows accountId (Js.truthy_number defaultCreditAccountId)
                (Js.truthy_number defaultDebitAccountId) ("import_" +:+ pretty now)
                rows s es l0) as Hrows.
  { induction rows as [|row rows IH]; intros s es l0; [done|].
    cbn [ImportService.import_rows]. rewrite Hrow. unfold bind at 1 3.
    destruct (try_catch _ _ l0) as [[acc|e] l1]; [apply IH|done]. }
  unfold bind. by rewrite Hrows.
Qed.

(** * Properties of the parsers *)

(** ** parseQif *)

Section qif_parser.
Import FileParser.

Lemma truthy_string_Some o s : Js.truthy_string o = Some s → o = Some s ∧ s ≠ "".
Proof. destruct o as [[|c rest]|]; simpl; intros [= <-]; done. Qed.

Lemma split_nonempty sep s : Js.split sep s ≠ [].
Proof.
  destruct s as [|c rest]; simpl; [done|].
  case_bool_decide; [done|]. by destruct (Js.split sep rest).
Qed.

(** Splitting distributes over a separator placed between two texts. *)
Lemma split_app sep a b :
  Js.split sep (a +:+ String sep b) = Js.split sep a ++ Js.split sep b.
Proof.
  induction a as [|c a IH].
  - change ("" +:+ String sep b) with (String sep b). cbn [Js.split].
    by rewrite bool_decide_eq_true_2.
  - change (String c a +:+ String sep b) with (String c (a +:+ String sep b)).
    cbn [Js.split]. case_bool_decide; [by rewrite IH|].
    rewrite IH. pose proof (split_nonempty sep a).
    by destruct (Js.split sep a).
Qed.

(** A line whose first character is not [D] leaves the date as it is, and
    one whose first character is not [T] leaves the amount as it is. *)
Lemma read_line_keeps_date t line :
  Js.charAt0 line ≠ "D" → p_date (read_line t line) = p_date t.
Proof. intros Hcode. unfold read_line. repeat case_bool_decide; done. Qed.

Lemma read_line_keeps_amount t line :
  Js.charAt0 line ≠ "T" → p_amount (read_line t line) = p_amount t.
Proof. intros Hcode. unfold read_line. repeat case_bool_decide; done. Qed.

Lemma read_lines_keep_date lines t :
  Forall (λ line, Js.charAt0 line ≠ "D") lines →
  p_date (fold_left read_line lines t) = p_date t.
Proof.
  revert t. induction lines as [|line lines IH]; intros t Hlines; [done|].
  apply Forall_cons in Hlines as [Hline Hlines]. simpl.
  by rewrite IH, read_line_keeps_date.
Qed.

Lemma read_lines_keep_amount lines t :
  Forall (λ line, Js.charAt0 line ≠ "T") lines →
  p_amount (fold_left read_line lines t) = p_amount t.
Proof.
  revert t. induction lines as [|line lines IH]; intros t Hlines; [done|].
  apply Forall_cons in Hlines as [Hline Hlines]. simpl.
  by rewrite IH, read_line_keeps_amount.
Qed.

End qif_parser.

(** X18. Every record that [parseQif] returns has a date that is not the
    empty string: an entry without a (non-empty) date is dropped. *)
Theorem parseQif_records_have_a_date (qifContent : string) (r : FileParser.QifTransaction) :
  r ∈ FileParser.parseQif qifContent → FileParser.date r ≠ "".
Proof.
  unfold FileParser.parseQif. intros Hr.
  apply list_elem_of_omap in Hr as (entry & _ & Hcomplete).
  unfold FileParser.complete in Hcomplete.
  destruct (Js.truthy_string _) as [d|] eqn:Hd; [|done].
  destruct (FileParser.p_amount _); [|done].
  injection Hcomplete as <-. simpl. by apply truthy_string_Some in Hd as [_ ?].
Qed.

Lemma parseQif_records_have_a_date_witness :
  FileParser.date
    (FileParser.mkQif "12/1/2024" (Js.Finite (-50)) (Some "Grocery Store")
       (Some "Food") (Some "X") None) ≠ "".
Proof.
  apply (parseQif_records_have_a_date qif_grocery_entry).
  vm_compute. left.
Defined.

(** X19. The records of two QIF texts joined by a [^] are the records of the
    first followed by the records of the second. *)
Theorem parseQif_of_joined_texts (first second : string) :
  FileParser.parseQif (first +:+ "^" +:+ second)
  = FileParser.parseQif first ++ FileParser.parseQif second.
Proof.
  unfold FileParser.parseQif.
  change ("^" +:+ second) with (String "^"%char second).
  by rewrite split_app, filter_app, omap_app.
Qed.

(** X20. Take the lines as [parseQif] reads them: the text is cut at every
    [^], each piece is trimmed, and the trimmed piece is cut at the line
    breaks ([qif_lines]).  When none of these lines starts with [D], or
    none of them starts with [T], [parseQif] returns no record at all.
    (The lines of the text itself are not what counts: a line that starts
    with a blank before its [D] is read as a date line when the blank is
    the start of an entry, since the entry is trimmed.) *)
Theorem parseQif_needs_date_and_amount_lines (qifContent : string) :
  Forall (λ line, Js.charAt0 line ≠ "D") (qif_lines qifContent)
  ∨ Forall (λ line, Js.charAt0 line ≠ "T") (qif_lines qifContent) →
  FileParser.parseQif qifContent = [].
Proof.
  unfold qif_lines, FileParser.parseQif. intros Hlines.
  generalize dependent (Js.split "^"%char qifContent). intros entries Hlines.
  induction entries as [|entry entries IH]; [done|].
  cbn [mbind list_bind] in Hlines.
  assert (FileParser.complete (FileParser.read_entry entry) = None) as Hdropped.
  { unfold FileParser.complete, FileParser.read_entry.
    destruct Hlines as [Hlines|Hlines]; apply Forall_app in Hlines as [Hentry _].
    - by rewrite read_lines_keep_date.
    - rewrite read_lines_keep_amount by done. simpl.
      by destruct (Js.truthy_string _). }
  assert (omap (λ entry, FileParser.complete (FileParser.read_entry entry))
            (filter (λ entry, Js.trim entry ≠ "") entries) = []) as Hrest.
  { apply IH. destruct Hlines as [Hlines|Hlines];
      apply Forall_app in Hlines as [_ Hlines]; auto. }
  destruct (decide (Js.trim entry ≠ "")).
  - rewrite filter_cons_True by done. cbn [omap list_omap]. by rewrite Hdropped.
  - by rewrite filter_cons_False.
Qed.

Lemma parseQif_needs_date_and_amount_lines_witness :
  FileParser.parseQif ("T-50.00" +:+ qif_line_break +:+ "PGrocery Store" +:+ "^") = [].
Proof.
  apply parseQif_needs_date_and_amount_lines. left.
  vm_compute. repeat constructor; discriminate.
Defined.

(** The first line of this text starts with a blank, and yet it is read as
    the date line: the blank is trimmed away with the entry. *)
Example parseQif_trims_the_entry :
  Js.split FileParser.newline
    (" D1/1/2024" +:+ qif_line_break +:+ "T5" +:+ qif_line_break +:+ "^")
  = [" D1/1/2024"; "T5"; "^"]
  ∧ FileParser.date
      <$> FileParser.parseQif
            (" D1/1/2024" +:+ qif_line_break +:+ "T5" +:+ qif_line_break +:+ "^")
    = ["1/1/2024"].
Proof. split; vm_compute; reflexivity. Qed.

(** ** parseCsv *)

Section csv_parser.
Import Csv.

Lemma remove_quotes_has_no_quote s : occurs "034"%char (remove_quotes s) = false.
Proof.
  induction s as [|c s IH]; [done|]. cbn [remove_quotes].
  case_bool_decide as Hc; [done|]. cbn [occurs].
  rewrite IH, orb_false_r. apply bool_decide_eq_false. congruence.
Qed.

Lemma cells_have_no_quote delimiter line v :
  v ∈ cells delimiter line → occurs "034"%char v = false.
Proof.
  unfold cells. intros (x & -> & _)%list_elem_of_fmap. apply remove_quotes_has_no_quote.
Qed.

(** The loop only ever sets a header to the value at the same position. *)
Lemma row_loop_fields pairs (start : gmap string string) k v :
  fold_left (λ transaction hv, set_field transaction hv.1 hv.2) pairs start !! k = Some v →
  start !! k = Some v ∨ (k, v) ∈ pairs.
Proof.
  revert start. induction pairs as [|[h x] pairs IH]; intros start Hk; [by left|].
  cbn [fold_left] in Hk. apply IH in Hk as [Hk|Hk]; [|right; by right].
  unfold set_field in Hk. cbn [fst snd] in Hk.
  case_bool_decide; [by left|].
  apply lookup_insert_Some in Hk as [[<- <-]|[_ Hk]]; [right; left|by left].
Qed.

Lemma row_loop_skips pairs (start : gmap string string) k :
  k ∉ pairs.*1 →
  fold_left (λ transaction hv, set_field transaction hv.1 hv.2) pairs start !! k
  = start !! k.
Proof.
  revert start. induction pairs as [|[h x] pairs IH]; intros start Hk; [done|].
  cbn [fold_left fst snd]. rewrite IH by (intros ?; apply Hk; by right).
  unfold set_field. case_bool_decide; [done|].
  rewrite lookup_insert_ne; [done|]. intros ->. apply Hk. left.
Qed.

Lemma zip_first_in {A B} (xs : list A) (ys : list B) x :
  x ∈ (zip xs ys).*1 → x ∈ xs.
Proof.
  intros ([x' y] & -> & Hin)%list_elem_of_fmap. by apply elem_of_zip_l in Hin.
Qed.

Lemma row_loop_at_position headers values (start : gmap string string) j h :
  NoDup headers → headers !! j = Some h → h ≠ "__proto__" →
  fold_left (λ transaction hv, set_field transaction hv.1 hv.2) (zip headers values) start
    !! h
  = match values !! j with Some v => Some v | None => start !! h end.
Proof.
  intros Hnodup. revert start values j.
  induction headers as [|h0 headers IH]; intros start values j Hj Hproto; [done|].
  apply NoDup_cons in Hnodup as [Hfresh Hnodup].
  destruct values as [|v values]; [done|].
  cbn [zip zip_with fold_left fst snd].
  destruct j as [|j]; cbn [lookup list_lookup] in *.
  - injection Hj as ->.
    rewrite row_loop_skips by (intros Hin; by apply zip_first_in in Hin).
    unfold set_field. rewrite bool_decide_eq_false_2 by done.
    by rewrite lookup_insert_eq.
  - rewrite (IH Hnodup _ _ j) by done.
    destruct (values !! j); [done|].
    unfold set_field. case_bool_decide; [done|].
    rewrite lookup_insert_ne; [done|].
    intros ->. apply Hfresh. by apply list_elem_of_lookup_2 in Hj.
Qed.


End csv_parser.

(** X21. [parseCsv] returns one row for every line after the first of the
    trimmed text, blank lines included; a text of one line (a header
    alone, or nothing) gives no row. *)
Theorem parseCsv_row_count (csvContent delimiter : string) :
  length (Csv.parseCsv csvContent delimiter)
  = (length (Js.split FileParser.newline (Js.trim csvContent)) - 1)%nat.
Proof.
  unfold Csv.parseCsv.
  destruct (Js.split FileParser.newline (Js.trim csvContent)) as [|first [|second others]];
    [done..|].
  cbn [length Nat.ltb Nat.leb]. rewrite length_fmap. cbn [length]. lia.
Qed.

(** X22. In every row that [parseCsv] returns, every key is one of the
    cells of the header line and every value is one of the cells of a line
    of the text, so neither contains a double quote. *)
Theorem parseCsv_fields_come_from_cells
    (csvContent delimiter : string) (row : gmap string string) (k v : string) :
  row ∈ Csv.parseCsv csvContent delimiter →
  row !! k = Some v →
  (∃ first others,
     Js.split FileParser.newline (Js.trim csvContent) = first :: others
     ∧ k ∈ Csv.cells delimiter first
     ∧ ∃ line, line ∈ others ∧ v ∈ Csv.cells delimiter line)
  ∧ occurs "034"%char k = false
  ∧ occurs "034"%char v = false.
Proof.
  unfold Csv.parseCsv. intros Hrow Hk.
  destruct (Js.split FileParser.newline (Js.trim csvContent)) as [|first others];
    [by apply not_elem_of_nil in Hrow|].
  destruct (length (first :: others) <? 2)%nat; [by apply not_elem_of_nil in Hrow|].
  apply list_elem_of_fmap in Hrow as (line & -> & Hline).
  unfold Csv.row_of in Hk. apply row_loop_fields in Hk as [Hk|Hk];
    [by rewrite lookup_empty in Hk|].
  pose proof (elem_of_zip_l _ _ _ _ Hk) as Hheader.
  pose proof (elem_of_zip_r _ _ _ _ Hk) as Hvalue.
  split; [|split].
  - exists first, others. eauto.
  - by apply cells_have_no_quote in Hheader.
  - by apply cells_have_no_quote in Hvalue.
Qed.

(** X23. When the cells of the header line are pairwise different, a row
    maps the header at position [j] to the cell at position [j] of its
    line, and to nothing if the line has no cell there (the key
    [__proto__] apart, which is never set). *)
Theorem parseCsv_rows_are_positional
    (csvContent delimiter first line h : string) (others : list string) (i j : nat) :
  Js.split FileParser.newline (Js.trim csvContent) = first :: others →
  others !! i = Some line →
  NoDup (Csv.cells delimiter first) →
  Csv.cells delimiter first !! j = Some h →
  h ≠ "__proto__" →
  ∃ row, Csv.parseCsv csvContent delimiter !! i = Some row
         ∧ row !! h = Csv.cells delimiter line !! j.
Proof.
  intros Hlines Hline Hnodup Hh Hproto. unfold Csv.parseCsv. rewrite Hlines.
  destruct others as [|second others]; [done|]. cbn [length Nat.ltb Nat.leb].
  exists (Csv.row_of (Csv.cells delimiter first) (Csv.cells delimiter line)). split.
  - by rewrite list_lookup_fmap, Hline.
  - unfold Csv.row_of. rewrite (row_loop_at_position _ _ _ j) by done.
    rewrite lookup_empty. by destruct (Csv.cells delimiter line !! j).
Qed.

(** The example of the parser: one row with the two fields. *)
Example parseCsv_two_columns :
  Csv.parseCsv csv_two_column_example Csv.default_delimiter
  = [ <["Date" := "1/1/2024"]> (<["Amount" := "-10"]> ∅) ].
Proof. vm_compute. reflexivity. Qed.

Lemma parseCsv_fields_come_from_cells_witness :
  occurs "034"%char "1/1/2024" = false.
Proof.
  eapply (parseCsv_fields_come_from_cells csv_two_column_example Csv.default_delimiter
            (<["Date" := "1/1/2024"]> (<["Amount" := "-10"]> ∅)) "Date" "1/1/2024").
  - rewrite parseCsv_two_columns. left.
  - vm_compute. reflexivity.
Defined.

Lemma parseCsv_rows_are_positional_witness :
  ∃ row, Csv.parseCsv csv_two_column_example "," !! 0%nat = Some row
         ∧ row !! "Amount" = Some "-10".
Proof.
  destruct (parseCsv_rows_are_positional csv_two_column_example "," "Date,Amount"
              "1/1/2024,-10" "Amount" ["1/1/2024,-10"] 0 1) as (row & Hrow & Hfield).
  - vm_compute. reflexivity.
  - reflexivity.
  - vm_compute. apply NoDup_cons_2; [|apply NoDup_singleton].
    intros Hin. apply list_elem_of_singleton in Hin. discriminate.
  - vm_compute. reflexivity.
  - done.
  - exists row. split; [exact Hrow|]. rewrite Hfield. vm_compute. reflexivity.
Defined.

(** * Properties of the QIF preview *)

Section qif_preview.
Context (parses : string → bool).

Lemma previewQifImport_run qifContent accountId l :
  Preview.previewQifImport parses qifContent accountId l
  = (Return
       (Preview.mk (imap Preview.candidate_of (FileParser.parseQif qifContent))
          Preview.qif_mappings
          ((match accounts l !! accountId with
            | None => ["Target account not found"]
            | Some _ => []
            end)
           ++ mjoin (imap (Preview.row_messages parses) (FileParser.parseQif qifContent)))
          []),
     l).
Proof. done. Qed.

Lemma abs_keeps_isNaN n : JsMath.isNaN (JsMath.abs n) = JsMath.isNaN n.
Proof. by destruct n. Qed.

Lemma abs_keeps_is_zero n : JsMath.is_zero (JsMath.abs n) = JsMath.is_zero n.
Proof.
  destruct n as [| |q]; try done. simpl. destruct (Qnum q); done.
Qed.

Lemma row_messages_nil index r :
  Preview.row_messages parses index r = [] ↔ Preview.acceptable parses r = true.
Proof.
  unfold Preview.row_messages, Preview.acceptable, Preview.candidate_of.
  cbn [Preview.date Preview.amount].
  rewrite abs_keeps_isNaN, abs_keeps_is_zero.
  destruct (Preview.invalid_date parses _), (JsMath.isNaN _), (JsMath.is_zero _);
    simpl; split; intros; done.
Qed.

Lemma all_row_messages_nil (f : nat → nat) records :
  mjoin (imap (λ i, Preview.row_messages parses (f i)) records) = []
  ↔ Forall (λ r, Preview.acceptable parses r = true) records.
Proof.
  revert f. induction records as [|r records IH]; intros f.
  - split; [constructor|done].
  - cbn [imap mjoin list_join]. rewrite Forall_cons.
    rewrite <- (IH (f ∘ S)), <- row_messages_nil.
    split.
    + intros [? ?]%app_eq_nil. eauto.
    + intros [-> Hrest]. exact Hrest.
Qed.

End qif_preview.

(** X24. [previewQifImport] never throws and never writes; its candidates
    are the records of [parseQif] in the same order, none left out: the
    candidate at position [i] carries the index [i], the parsed date, the
    absolute value of the amount, and the description, reference and
    category of the record at position [i]. *)
Theorem preview_keeps_every_record
    (parses : string → bool) (qifContent : string) (accountId : Z) (l : Ledger) :
  ∃ preview,
    Preview.previewQifImport parses qifContent accountId l = (Return preview, l)
    ∧ length (Preview.transactions preview) = length (FileParser.parseQif qifContent)
    ∧ ∀ (i : nat) r, FileParser.parseQif qifContent !! i = Some r →
        Preview.transactions preview !! i
        = Some (Preview.mkCandidate (Z.of_nat i)
                  (ImportService.parseDate (FileParser.date r))
                  (JsMath.abs (FileParser.amount r))
                  (FileParser.description r) (FileParser.reference r)
                  (FileParser.category r)
                  (JsMath.is_negative (FileParser.amount r))).
Proof.
  eexists. split; [apply previewQifImport_run|]. cbn [Preview.transactions]. split.
  - apply length_imap.
  - intros i r Hr. by rewrite list_lookup_imap, Hr.
Qed.

(** X25. The preview reports no error exactly when the target account exists
    and every record has a valid date and an amount that is a number other
    than zero. *)
Theorem preview_is_clean_iff
    (parses : string → bool) (qifContent : string) (accountId : Z) (l : Ledger)
    (preview : Preview.t) :
  outcome (Preview.previewQifImport parses qifContent accountId) l = Return preview →
  Preview.errors preview = []
  ↔ is_Some (accounts l !! accountId)
    ∧ Forall (λ r, Preview.acceptable parses r = true) (FileParser.parseQif qifContent).
Proof.
  unfold outcome. rewrite previewQifImport_run. cbn [fst]. intros [= <-].
  cbn [Preview.errors].
  rewrite <- (all_row_messages_nil parses id).
  destruct (accounts l !! accountId) as [a|]; simpl.
  - split; [intros Hnil; split; [by eexists|done]|by intros [_ ?]].
  - split; [done|]. by intros [[? ?] _].
Qed.

Lemma preview_is_clean_iff_witness :
  ∃ preview,
    outcome (Preview.previewQifImport (λ _, false) qif_grocery_entry 1) demo_ledger
      = Return preview
    ∧ Preview.errors preview = [].
Proof.
  eexists. split; [reflexivity|].
  apply (preview_is_clean_iff (λ _, false) qif_grocery_entry 1 demo_ledger);
    [reflexivity|].
  split.
  - vm_compute. by eexists.
  - assert (FileParser.parseQif qif_grocery_entry
            = [ FileParser.mkQif "12/1/2024" (Js.Finite (-50)) (Some "Grocery Store")
                  (Some "Food") (Some "X") None ]) as -> by (vm_compute; reflexivity).
    constructor; [|constructor]. vm_compute. reflexivity.
Defined.

(** X26. A candidate of the preview never has a negative amount, and its
    amount together with its debit flag gives back the amount of the record
    it was made from: the amount itself, negated for a debit. *)
Theorem preview_candidate_keeps_the_sign
    (parses : string → bool) (qifContent : string) (accountId : Z) (l : Ledger)
    (preview : Preview.t) (i : nat) (c : Preview.Candidate) :
  outcome (Preview.previewQifImport parses qifContent accountId) l = Return preview →
  Preview.transactions preview !! i = Some c →
  JsMath.is_negative (Preview.amount c) = false
  ∧ ∃ r, FileParser.parseQif qifContent !! i = Some r
         ∧ signed_amount c = FileParser.amount r.
Proof.
  unfold outcome. rewrite previewQifImport_run. cbn [fst]. intros [= <-].
  cbn [Preview.transactions]. rewrite list_lookup_imap.
  destruct (FileParser.parseQif qifContent !! i) as [r|]; [simpl|done].
  intros [= <-]. unfold Preview.candidate_of, signed_amount.
  cbn [Preview.amount Preview.isDebit].
  destruct (FileParser.amount r) as [|negative|[n d]] eqn:Hamount; simpl.
  - split; [done|]. exists r. by rewrite Hamount.
  - split; [done|]. exists r. rewrite Hamount. split; [done|]. by destruct negative.
  - split; [by destruct n|]. exists r. rewrite Hamount. split; [done|]. by destruct n.
Qed.

Lemma preview_candidate_keeps_the_sign_witness :
  ∃ r, FileParser.parseQif qif_grocery_entry !! 0%nat = Some r
       ∧ FileParser.amount r = Js.Finite (-50).
Proof.
  destruct (preview_candidate_keeps_the_sign (λ _, false) qif_grocery_entry 1 demo_ledger
              (Preview.mk
                 [Preview.mkCandidate 0 (LocalDay 2024 12 1) (Js.Finite 50)
                    (Some "Grocery Store") None (Some "Food") true]
                 Preview.qif_mappings [] [])
              0
              (Preview.mkCandidate 0 (LocalDay 2024 12 1) (Js.Finite 50)
                 (Some "Grocery Store") None (Some "Food") true))
    as (_ & r & Hr & Hsign).
  - vm_compute. reflexivity.
  - reflexivity.
  - exists r. split; [exact Hr|]. rewrite <- Hsign. reflexivity.
Defined.

(** The preview of a text with bad entries: every entry is still a
    candidate, and each defect is reported with its row. *)
Example preview_of_bad_entries :
  outcome (Preview.previewQifImport (λ _, false) qif_with_bad_entries 9) demo_ledger
  = Return
      (Preview.mk
         [ Preview.mkCandidate 0 (LocalDay 2024 12 1) (Js.Finite 50)
             (Some "Grocery Store") None (Some "Food") true;
           Preview.mkCandidate 1 (LocalDay 2024 12 2) (Js.Finite 0) None None None false;
           Preview.mkCandidate 2 (DateOfString "soon") Js.NaN None None None false ]
         Preview.qif_mappings
         [ "Target account not found";
           "Invalid amount at row 2: 0";
           "Invalid date format at row 3: soon";
           "Invalid amount at row 3: NaN" ]
         []).
Proof. vm_compute. reflexivity. Qed.

Lemma preview_keeps_every_record_witness :
  ∃ preview,
    Preview.previewQifImport (λ _, false) qif_with_bad_entries 9 demo_ledger
      = (Return preview, demo_ledger)
    ∧ length (Preview.transactions preview) = 3%nat.
Proof.
  destruct (preview_keeps_every_record (λ _, false) qif_with_bad_entries 9 demo_ledger)
    as (preview & Hrun & Hlength & _).
  exists preview. split; [exact Hrun|]. rewrite Hlength. vm_compute. reflexivity.
Defined.

(** * Properties of parseDate *)

Section date_patterns.

Lemma take_of_leading_digits k s :
  (k ≤ String.length (Js.span_digits s).1)%nat →
  digits_only (Js.string_take k s) = true
  ∧ String.length (Js.string_take k s) = k.
Proof.
  revert s. induction k as [|k IH]; intros s Hk; [by destruct s|].
  destruct s as [|c s]; [simpl in Hk; lia|].
  cbn [Js.span_digits] in Hk. destruct (Js.is_digit c) eqn:Hc; [|simpl in Hk; lia].
  destruct (Js.span_digits s) as [ds tail] eqn:Hspan. cbn [fst String.length] in Hk.
  destruct (IH s) as [Hdigits Hlength]; [rewrite Hspan; simpl; lia|].
  cbn [Js.string_take digits_only String.length]. by rewrite Hc, Hdigits, Hlength.
Qed.

(** Every group captured by a match is a non-empty string of digits, and
    there is one group for each digit group of the expression. *)
Lemma match_here_groups items s groups :
  Forall proper_item items →
  Js.match_here items s = Some groups →
  length groups = length (filter (λ item, is_group item = true) items)
  ∧ Forall (λ g, digits_only g = true ∧ g ≠ "") groups.
Proof.
  intros Hitems. revert s groups.
  induction Hitems as [|item items Hitem Hitems IH]; intros s groups Hmatch.
  - injection Hmatch as <-. by split.
  - destruct item as [lo hi|c]; cbn [Js.match_here] in Hmatch.
    + rewrite filter_cons_True by done. cbn [length].
      set (available := Nat.min hi (String.length (Js.span_digits s).1)) in Hmatch.
      assert (available ≤ String.length (Js.span_digits s).1)%nat as Havailable
        by (unfold available; lia).
      assert (∀ k, (k ≤ String.length (Js.span_digits s).1)%nat →
                (fix backtrack (k : nat) : option (list string) :=
                   if (k <? lo)%nat then None
                   else match Js.match_here items (Js.string_drop k s) with
                        | Some groups => Some (Js.string_take k s :: groups)
                        | None => match k with
                                  | O => None
                                  | S k' => backtrack k'
                                  end
                        end) k = Some groups →
                length groups
                = S (length (filter (λ item, is_group item = true) items))
                ∧ Forall (λ g, digits_only g = true ∧ g ≠ "") groups) as Hloop.
      { induction k as [|k IHk]; intros Hk Hrun.
        - destruct (0 <? lo)%nat eqn:Hlo; [done|].
          apply Nat.ltb_ge in Hlo. simpl in Hitem. lia.
        - destruct (S k <? lo)%nat eqn:Hlo; [done|].
          destruct (Js.match_here items (Js.string_drop (S k) s)) as [rest|] eqn:Hrest.
          + injection Hrun as <-. destruct (IH _ _ Hrest) as [Hlen Hall].
            destruct (take_of_leading_digits (S k) s Hk) as [Hdigits Hlength].
            split; [cbn [length]; by rewrite Hlen|].
            constructor; [|done]. split; [done|].
            intros Hempty.
            assert (String.length (Js.string_take (S k) s) = String.length "") as Hzero
              by (f_equal; exact Hempty).
            rewrite Hlength in Hzero. done.
          + apply IHk; [lia|done]. }
      exact (Hloop available Havailable Hmatch).
    + destruct s as [|c' s]; [done|]. case_bool_decide; [|done].
      rewrite filter_cons_False by done. by apply (IH s).
Qed.

Lemma regex_match_groups items s groups :
  Forall proper_item items →
  Js.regex_match items s = Some groups →
  length groups = length (filter (λ item, is_group item = true) items)
  ∧ Forall (λ g, digits_only g = true ∧ g ≠ "") groups.
Proof.
  intros Hitems. induction s as [|c s IH]; cbn [Js.regex_match].
  - destruct (Js.match_here items "") eqn:Hhere; [|done].
    intros [= <-]. by apply (match_here_groups items "").
  - destruct (Js.match_here items (String c s)) eqn:Hhere; [|exact IH].
    intros [= <-]. by apply (match_here_groups items (String c s)).
Qed.

Lemma parseInt_of_digits g :
  digits_only g = true → g ≠ "" → is_Some (Js.parseInt g).
Proof.
  destruct g as [|c g]; [done|]. cbn [digits_only].
  intros [Hc Hg]%andb_true_iff _. unfold Js.parseInt.
  assert (Js.trimStart (String c g) = String c g) as ->.
  { cbn [Js.trimStart]. unfold Js.is_digit in Hc. apply bool_decide_eq_true in Hc.
    destruct Hc as [n Hn].
    assert (Js.is_whitespace c = false) as ->; [|done].
    unfold Js.is_whitespace.
    destruct c as [[] [] [] [] [] [] [] []]; try done; simpl in Hn; done. }
  assert (Js.read_sign (String c g) = (false, String c g)) as ->.
  { unfold Js.is_digit in Hc. apply bool_decide_eq_true in Hc. destruct Hc as [n Hn].
    destruct c as [[] [] [] [] [] [] [] []]; try done; simpl in Hn; done. }
  cbn [Js.span_digits]. rewrite Hc.
  destruct (Js.span_digits g) as [ds tail]. by rewrite bool_decide_eq_false_2.
Qed.

Lemma formats_are_proper :
  Forall (λ format, Forall proper_item format
                    ∧ length (filter (λ item, is_group item = true) format) = 3%nat)
    ImportService.formats.
Proof. repeat constructor. Qed.

Lemma date_of_match_is_a_day index groups :
  length groups = 3%nat →
  Forall (λ g, digits_only g = true ∧ g ≠ "") groups →
  ∃ y m d, ImportService.date_of_match index groups = LocalDay y m d.
Proof.
  intros Hlength Hgroups.
  destruct groups as [|g1 [|g2 [|g3 [|]]]]; try done.
  apply Forall_cons in Hgroups as [[H1 H1'] Hgroups].
  apply Forall_cons in Hgroups as [[H2 H2'] Hgroups].
  apply Forall_cons in Hgroups as [[H3 H3'] _].
  destruct (parseInt_of_digits g1 H1 H1') as [month Hmonth].
  destruct (parseInt_of_digits g2 H2 H2') as [day Hday].
  destruct (parseInt_of_digits g3 H3 H3') as [year Hyear].
  unfold ImportService.date_of_match. rewrite Hyear, Hmonth, Hday.
  destruct (index =? 2)%nat; unfold Js.new_Date;
    destruct (Js.civil_from_days _) as [[y m] d]; eauto.
Qed.

Lemma no_digit_no_match items s :
  Forall proper_item items → items ≠ [] → is_group <$> head items = Some true →
  has_digit s = false → Js.regex_match items s = None.
Proof.
  intros Hitems _ Hhead. destruct items as [|[lo hi|c] items]; try done.
  apply Forall_cons in Hitems as [Hlo _]. simpl in Hlo.
  assert (∀ s, (∀ c rest, s = String c rest → Js.is_digit c = false) →
            Js.match_here (Js.DigitGroup lo hi :: items) s = None) as Hhere.
  { intros s0 Hfirst. cbn [Js.match_here].
    assert (String.length (Js.span_digits s0).1 = 0%nat) as ->.
    { destruct s0 as [|c rest]; [done|]. cbn [Js.span_digits].
      by rewrite (Hfirst c rest eq_refl). }
    rewrite Nat.min_0_r. destruct (0 <? lo)%nat eqn:E; [done|].
    apply Nat.ltb_ge in E. lia. }
  induction s as [|c s IH]; intros Hnone; cbn [Js.regex_match].
  - by rewrite Hhere.
  - cbn [has_digit] in Hnone. apply orb_false_elim in Hnone as [Hc Hs].
    rewrite Hhere; [by apply IH|]. by intros c' rest [= <- <-].
Qed.

End date_patterns.

(** The two ways out of the loop of [parseDate]. *)
Lemma parseDate_cases (dateString : string) :
  (∃ format groups y m d,
      format ∈ ImportService.formats
      ∧ Js.regex_match format dateString = Some groups
      ∧ ImportService.parseDate dateString = LocalDay y m d)
  ∨ (Forall (λ format, Js.regex_match format dateString = None) ImportService.formats
     ∧ ImportService.parseDate dateString = DateOfString dateString).
Proof.
  unfold ImportService.parseDate.
  pose proof formats_are_proper as Hproper.
  assert (∀ index remaining,
            Forall (λ format, Forall proper_item format
                     ∧ length (filter (λ item, is_group item = true) format) = 3%nat)
              remaining →
            (∃ format groups y m d,
                format ∈ remaining
                ∧ Js.regex_match format dateString = Some groups
                ∧ ImportService.parseDate_from index remaining dateString = LocalDay y m d)
            ∨ (Forall (λ format, Js.regex_match format dateString = None) remaining
               ∧ ImportService.parseDate_from index remaining dateString
                 = DateOfString dateString)) as Hloop.
  { intros index remaining. revert index.
    induction remaining as [|format remaining IH]; intros index Hall.
    - right. by split.
    - apply Forall_cons in Hall as [[Hitems Hthree] Hall].
      cbn [ImportService.parseDate_from].
      destruct (Js.regex_match format dateString) as [groups|] eqn:Hmatch.
      + left. destruct (regex_match_groups _ _ _ Hitems Hmatch) as [Hlen Hgroups].
        destruct (date_of_match_is_a_day index groups) as (y & m & d & Hday);
          [congruence|done|].
        exists format, groups, y, m, d. split; [left|by split].
      + destruct (IH (S index) Hall) as [(f & g & y & m & d & Hin & Hf & Hday)|[Hnone Hfall]].
        * left. exists f, g, y, m, d. split; [by right|by split].
        * right. split; [by constructor|done]. }
  apply Hloop, Hproper.
Qed.

(** X27. [parseDate] never builds an invalid date itself: its result is
    either a calendar day, whenever one of the three patterns matches
    somewhere in the string (whatever the numbers in it are), or, when
    none matches, the date the engine's own parser makes of the string. *)
Theorem parseDate_is_a_day_or_the_fallback (dateString : string) :
  (∃ format groups y m d,
      format ∈ ImportService.formats
      ∧ Js.regex_match format dateString = Some groups
      ∧ ImportService.parseDate dateString = LocalDay y m d)
  ∨ (Forall (λ format, Js.regex_match format dateString = None) ImportService.formats
     ∧ ImportService.parseDate dateString = DateOfString dateString).
Proof. apply parseDate_cases. Qed.

(** X28. A string without any digit matches none of the patterns:
    [parseDate] hands it to the engine's own parser. *)
Theorem parseDate_without_digits_falls_back (dateString : string) :
  has_digit dateString = false →
  ImportService.parseDate dateString = DateOfString dateString.
Proof.
  intros Hnone.
  destruct (parseDate_cases dateString) as [Hday|[_ Hfall]];
    [|done].
  destruct Hday as (format & groups & _ & _ & _ & Hin & Hmatch & _).
  exfalso.
  assert (Js.regex_match format dateString = None) as Hno; [|congruence].
  unfold ImportService.formats in Hin.
  repeat (apply elem_of_cons in Hin as [->|Hin];
          [apply no_digit_no_match; [repeat constructor|done|done|done]|]).
  by apply not_elem_of_nil in Hin.
Qed.

Lemma parseDate_without_digits_falls_back_witness :
  ImportService.parseDate "soon" = DateOfString "soon".
Proof. apply parseDate_without_digits_falls_back. reflexivity. Defined.


(** ** The CSV preview *)

Section csv_preview.

Variable parses : string → bool.
Variable mappings : ImportService.ImportMapping.

Lemma read_row_of_readable (index : nat) (csvRow : gmap string string) :
  CsvPreview.readable mappings csvRow →
  ∃ transaction messages,
    CsvPreview.read_row parses mappings index csvRow = Return (transaction, messages)
    ∧ CsvPreview.originalIndex transaction = Z.of_nat index
    ∧ CsvPreview.originalData transaction = csvRow.
Proof.
  intros [[day Hday] Hamount]. unfold CsvPreview.read_row, CsvPreview.get.
  rewrite Hday.
  destruct (csvRow !! ImportService.amountField mappings) as [text|] eqn:Htext.
  - cbn [CsvPreview.amount_of CsvPreview.date_of]. by eexists _, _.
  - rewrite bool_decide_eq_false_2 by auto.
    cbn [CsvPreview.amount_of CsvPreview.date_of]. by eexists _, _.
Qed.

Lemma read_row_of_unreadable (index : nat) (csvRow : gmap string string) :
  ¬ CsvPreview.readable mappings csvRow →
  ∃ message, CsvPreview.read_row parses mappings index csvRow = Throw message.
Proof.
  intros Hnot. unfold CsvPreview.read_row, CsvPreview.get.
  destruct (csvRow !! ImportService.amountField mappings) as [text|] eqn:Htext.
  - cbn [CsvPreview.amount_of].
    destruct (csvRow !! ImportService.dateField mappings) as [day|] eqn:Hday.
    + destruct Hnot. split; [by eexists | by rewrite Htext].
    + case_bool_decide; cbn [CsvPreview.date_of]; by eexists.
  - case_bool_decide as Hname; cbn [CsvPreview.amount_of]; [by eexists |].
    destruct (csvRow !! ImportService.dateField mappings) as [day|] eqn:Hday.
    + destruct Hnot. split; [by eexists | done].
    + case_bool_decide; cbn [CsvPreview.date_of]; by eexists.
Qed.

Lemma read_rows_of_readable (rows : list (gmap string string)) (index : nat) :
  Forall (CsvPreview.readable mappings) rows →
  ∃ transactions messages,
    CsvPreview.read_rows parses mappings index rows = Return (transactions, messages)
    ∧ length transactions = length rows
    ∧ ∀ i transaction, transactions !! i = Some transaction →
        CsvPreview.originalIndex transaction = Z.of_nat (index + i)
        ∧ rows !! i = Some (CsvPreview.originalData transaction).
Proof.
  intros Hrows. revert index.
  induction Hrows as [|csvRow rows Hrow _ IH]; intros index.
  - exists [], []. by repeat split.
  - destruct (read_row_of_readable index csvRow Hrow)
      as (transaction & messages & Hread & Hindex & Hdata).
    destruct (IH (S index)) as (transactions & more & Hrest & Hlength & Hall).
    cbn [CsvPreview.read_rows]. rewrite Hread, Hrest.
    eexists _, _. split; [done|]. split; [by cbn [length]; rewrite Hlength|].
    intros [|i] candidate Hi.
    + injection Hi as <-. rewrite Hindex, Hdata. split; [f_equal; lia | done].
    + destruct (Hall i candidate Hi) as [Hposition Hrow'].
      split; [rewrite Hposition; f_equal; lia | done].
Qed.

Lemma read_rows_of_unreadable (rows : list (gmap string string)) (index : nat)
    (csvRow : gmap string string) :
  csvRow ∈ rows → ¬ CsvPreview.readable mappings csvRow →
  ∃ message, CsvPreview.read_rows parses mappings index rows = Throw message.
Proof.
  intros Hin Hnot. revert index.
  induction Hin as [csvRow rows|csvRow other rows _ IH]; intros index.
  - destruct (read_row_of_unreadable index csvRow Hnot) as [message Hread].
    cbn [CsvPreview.read_rows]. rewrite Hread. by eexists.
  - cbn [CsvPreview.read_rows].
    destruct (CsvPreview.read_row parses mappings index other) as [[? ?]|]; [|by eexists].
    destruct (IH Hnot (S index)) as [message ->]. by eexists.
Qed.

(** X29.  When in every row of the CSV text the mapped date column is
    present and the mapped amount column is present or is at least not the
    name of an inherited object member, [previewCsvImport] returns a
    preview and leaves the ledger alone.  The preview has one candidate
    per data row, in order: the candidate at position [i] carries the
    index [i] and the row [i] itself as its original data, also when
    messages were recorded for the row. *)
Theorem preview_csv_keeps_every_readable_row (csvContent : string) (accountId : Z)
    (l : Ledger) :
  Forall (CsvPreview.readable mappings) (Csv.parseCsv csvContent Csv.default_delimiter) →
  ∃ preview,
    CsvPreview.previewCsvImport parses csvContent mappings accountId l = (Return preview, l)
    ∧ length (CsvPreview.transactions preview)
      = length (Csv.parseCsv csvContent Csv.default_delimiter)
    ∧ ∀ i transaction, CsvPreview.transactions preview !! i = Some transaction →
        CsvPreview.originalIndex transaction = Z.of_nat i
        ∧ Csv.parseCsv csvContent Csv.default_delimiter !! i
          = Some (CsvPreview.originalData transaction).
Proof.
  intros Hrows.
  destruct (read_rows_of_readable _ 0 Hrows) as (transactions & messages & Hread & Hlength & Hall).
  unfold CsvPreview.previewCsvImport. cbn [bind get_ledger]. rewrite Hread.
  eexists. split; [reflexivity|]. split; [done|]. exact Hall.
Qed.

(** X30.  When some data row of the CSV text lacks the mapped date column
    (the header does not have it, or the line is too short to reach it),
    or lacks the mapped amount column while that column is named like an
    inherited object member, [previewCsvImport] throws: no preview and no
    message list is returned, whatever the other rows are, and the ledger
    is left alone. *)
Theorem preview_csv_throws_on_unreadable_row (csvContent : string) (accountId : Z)
    (l : Ledger) (csvRow : gmap string string) :
  csvRow ∈ Csv.parseCsv csvContent Csv.default_delimiter →
  ¬ CsvPreview.readable mappings csvRow →
  ∃ message,
    CsvPreview.previewCsvImport parses csvContent mappings accountId l = (Throw message, l).
Proof.
  intros Hin Hnot.
  destruct (read_rows_of_unreadable _ 0 csvRow Hin Hnot) as [message Hread].
  unfold CsvPreview.previewCsvImport. cbn [bind get_ledger]. rewrite Hread.
  by eexists.
Qed.

End csv_preview.

Lemma preview_csv_keeps_every_readable_row_witness :
  ∃ preview,
    CsvPreview.previewCsvImport (λ _, false) csv_two_column_example csv_mapping 1 demo_ledger
      = (Return preview, demo_ledger)
    ∧ length (CsvPreview.transactions preview)
      = length (Csv.parseCsv csv_two_column_example Csv.default_delimiter)
    ∧ ∀ i transaction, CsvPreview.transactions preview !! i = Some transaction →
        CsvPreview.originalIndex transaction = Z.of_nat i
        ∧ Csv.parseCsv csv_two_column_example Csv.default_delimiter !! i
          = Some (CsvPreview.originalData transaction).
Proof.
  apply (preview_csv_keeps_every_readable_row (λ _, false) csv_mapping
           csv_two_column_example 1 demo_ledger).
  rewrite parseCsv_two_columns.
  constructor; [|constructor].
  split; [by eexists | intros Hnone; vm_compute in Hnone; discriminate].
Defined.

Lemma preview_csv_throws_on_unreadable_row_witness :
  ∃ message,
    CsvPreview.previewCsvImport (λ _, false) csv_with_short_line csv_mapping 1 demo_ledger
      = (Throw message, demo_ledger).
Proof.
  apply (preview_csv_throws_on_unreadable_row (λ _, false) csv_mapping
           csv_with_short_line 1 demo_ledger (<["Amount" := "7"]> ∅)).
  - assert (Csv.parseCsv csv_with_short_line Csv.default_delimiter
            = [ <["Date" := "234.50"]> (<["Amount" := "$1"]> ∅); <["Amount" := "7"]> ∅ ]) as ->
      by (vm_compute; reflexivity).
    apply list_elem_of_further, list_elem_of_here.
  - intros [[day Hday] _]. vm_compute in Hday. discriminate.
Defined.

(** The short line stops the preview; a comma inside the priced line has
    split it into two cells before that. *)
Example preview_of_short_line :
  (CsvPreview.previewCsvImport (λ _, false) csv_with_short_line csv_mapping 1 demo_ledger).1
  = Throw "Cannot read properties of undefined (reading 'match')".
Proof. vm_compute. reflexivity. Qed.
